(** * Email-Automation: contact discovery, verification and reduction

    A shallow embedding of [cleaner.py] (the Reducer) and of the pure and
    oracle-driven parts of [scraper.py] (text extraction, guessing, the
    fetcher, the verifier and the per-profile loop of [main]).

    A Python [str] is a [string]; the character numbered [n] stands for the
    code point [n] (0..255).  A Python set is a list without repetition, read
    up to membership (no statement below depends on the order in which a set
    is iterated); an insertion-ordered dict is an association list.  The
    network, the HTML parser and the profile source are functions of a
    [World]; a run is one in which no exception escapes the handlers the
    program has. *)

From Stdlib Require Import Bool Arith ZArith Lia List Ascii String.
From Stdlib Require Import DecimalString.
Import ListNotations.
Local Open Scope list_scope.
Local Open Scope string_scope.
Local Open Scope nat_scope.

(** ** Python string primitives *)

Module Py.

Definition code (c : ascii) : nat := nat_of_ascii c.

Definition between (lo hi n : nat) : bool := (lo <=? n) && (n <=? hi).

(** [str.isspace] on one character, which is also what [\s] matches in a
    [str] pattern and what [strip] and [split] remove. *)
Definition isspace (c : ascii) : bool :=
  let n := code c in
  between 9 13 n || between 28 32 n || (n =? 133) || (n =? 160).

(** [str.lower] on one character. *)
Definition lower_char (c : ascii) : ascii :=
  let n := code c in
  if between 65 90 n then ascii_of_nat (n + 32)
  else if between 192 222 n && negb (n =? 215) then ascii_of_nat (n + 32)
  else c.

Fixpoint lower (s : string) : string :=
  match s with
  | EmptyString => EmptyString
  | String c s' => String (lower_char c) (lower s')
  end.

(** [s.startswith(p)] *)
Fixpoint startswith (p s : string) : bool :=
  match p with
  | EmptyString => true
  | String a p' =>
      match s with
      | EmptyString => false
      | String b s' => Ascii.eqb a b && startswith p' s'
      end
  end.

(** [needle in hay] *)
Fixpoint contains (needle hay : string) : bool :=
  startswith needle hay ||
  match hay with
  | EmptyString => false
  | String _ hay' => contains needle hay'
  end.

Fixpoint lstrip (s : string) : string :=
  match s with
  | EmptyString => EmptyString
  | String c s' => if isspace c then lstrip s' else s
  end.

Fixpoint rstrip (s : string) : string :=
  match s with
  | EmptyString => EmptyString
  | String c s' =>
      match rstrip s' with
      | EmptyString => if isspace c then EmptyString else String c EmptyString
      | r => String c r
      end
  end.

Definition strip (s : string) : string := rstrip (lstrip s).

(** Truthiness of a [str]. *)
Definition truthy (s : string) : bool :=
  match s with EmptyString => false | _ => true end.

Fixpoint all_chars (p : ascii -> bool) (s : string) : bool :=
  match s with
  | EmptyString => true
  | String c s' => p c && all_chars p s'
  end.

(** [s.split(sep)[-1]] for a one-character separator: the text after the
    last occurrence, the whole string when there is none. *)
Fixpoint after_last (sep : ascii) (s : string) : string :=
  match s with
  | EmptyString => EmptyString
  | String c s' =>
      if Ascii.eqb c sep
      then (if contains (String sep EmptyString) s' then after_last sep s' else s')
      else (if contains (String sep EmptyString) s' then after_last sep s' else s)
  end.

(** [s.split(sep, 1)]: [None] when [sep] does not occur (the list then has
    one element), otherwise the text before and after the first one. *)
Fixpoint split_first (sep : ascii) (s : string) : option (string * string) :=
  match s with
  | EmptyString => None
  | String c s' =>
      if Ascii.eqb c sep then Some (EmptyString, s')
      else match split_first sep s' with
           | Some (a, b) => Some (String c a, b)
           | None => None
           end
  end.

(** An insertion-ordered [dict] with [str] keys. *)
Section Dict.
Context {V : Type}.

Definition dict := list (string * V).

Fixpoint get (k : string) (d : dict) : option V :=
  match d with
  | [] => None
  | (k', v) :: d' => if String.eqb k' k then Some v else get k d'
  end.

Definition mem (k : string) (d : dict) : bool :=
  match get k d with Some _ => true | None => false end.

(** [d[k] = v]: an existing key keeps its position. *)
Fixpoint set (k : string) (v : V) (d : dict) : dict :=
  match d with
  | [] => [(k, v)]
  | (k', v') :: d' =>
      if String.eqb k' k then (k, v) :: d' else (k', v') :: set k v d'
  end.

Definition keys (d : dict) : list string := map fst d.
Definition values (d : dict) : list V := map snd d.
End Dict.
Arguments dict : clear implicits.

End Py.

(** ** cleaner.py *)

(** One line of [emails.csv], with the eight columns the scraper writes,
    each present as a string. *)
Record Row := mkRow {
  username : string;
  full_name : string;
  external_url : string;
  email : string;
  source : string;
  mx : string;
  smtp_status : string;
  smtp_note : string
}.

Definition priority_value (src : string) : Z :=
  if String.eqb src "bio" then 1
  else if String.eqb src "site" then 2
  else if String.eqb src "site_deep" then 3
  else if String.eqb src "guess_personal" then 4
  else 99.

Definition is_valid_email (em : string) : bool :=
  if negb (Py.truthy em) then false
  else if Py.contains "example.com" (Py.lower em) then false
  else if String.eqb (Py.strip em) "" then false
  else if negb (Py.contains "@" em) then false
  else true.

Definition is_error_row (r : Row) : bool :=
  if String.eqb (source r) "error" then true
  else if Py.contains "profile_error" (smtp_note r) then true
  else false.

Definition clean_rows (rows : list Row) : list Row :=
  filter (fun r => negb (is_error_row r) && is_valid_email (email r)) rows.

Definition select_step (best : Py.dict Row) (row : Row) : Py.dict Row :=
  let user := username row in
  match Py.get user best with
  | None => Py.set user row best
  | Some cur =>
      if (priority_value (source row) <? priority_value (source cur))%Z
      then Py.set user row best
      else best
  end.

Definition select_best (cleaned_rows : list Row) : list Row :=
  Py.values (fold_left select_step cleaned_rows []).

(** [main]: the reduced log is [select_best (clean_rows rows)]. *)
Definition reduce (rows : list Row) : list Row := select_best (clean_rows rows).

(** The replacement rule of the Reducer in the specification's words: the
    first record seen for a handle becomes its current best, a later one
    replaces it only when its tier has strictly lower rank. *)
Definition spec_replace (h : string) (cur : option Row) (r : Row) : option Row :=
  if String.eqb (username r) h then
    match cur with
    | None => Some r
    | Some b =>
        if (priority_value (source r) <? priority_value (source b))%Z
        then Some r else Some b
    end
  else cur.

Definition spec_best (h : string) (rows : list Row) : option Row :=
  fold_left (spec_replace h) rows None.

(** A record with its handle and tier set. *)
Definition with_tier (u tier : string) (r : Row) : Row :=
  mkRow u (full_name r) (external_url r) (email r) tier (mx r)
        (smtp_status r) (smtp_note r).

(** Every key of the running dictionary is the handle of its record. *)
Definition keyed (d : Py.dict Row) : Prop :=
  forall k r, In (k, r) d -> username r = k.

(** The records the filter stage removes. *)
Definition filtered_out (r : Row) : Prop :=
  email r = ""
  \/ Py.contains "@" (email r) = false
  \/ Py.contains "example.com" (Py.lower (email r)) = true
  \/ source r = "error"
  \/ Py.contains "profile_error" (smtp_note r) = true.

(** The record the output holds for a handle. *)
Definition output_for (h : string) (out : list Row) : option Row :=
  find (fun r => String.eqb (username r) h) out.

(** ** A backtracking matcher for the patterns of scraper.py

    The three patterns are alternations of sequences of single-character
    tests and greedy repetitions of a single-character test.  Matching
    follows [re]: alternatives are tried left to right, a repetition takes
    as many characters as it can and gives them back one at a time when the
    rest of the sequence fails. *)

Module Re.

Inductive atom :=
| One (p : ascii -> bool)     (* one character satisfying [p] *)
| Star (p : ascii -> bool).   (* [p*], greedy *)

Definition seq := list atom.

(** [p+] *)
Definition plus (p : ascii -> bool) : seq := [One p; Star p].

(** [match_seq r s] is the text left after the match of [r] at the start of
    [s] that [re] finds, if any. *)
Fixpoint match_seq (r : seq) : string -> option string :=
  match r with
  | [] => fun s => Some s
  | One p :: r' => fun s =>
      match s with
      | String c s' => if p c then match_seq r' s' else None
      | EmptyString => None
      end
  | Star p :: r' =>
      fix star (s : string) : option string :=
        match s with
        | String c s' =>
            if p c then
              match star s' with
              | Some rest => Some rest
              | None => match_seq r' s
              end
            else match_seq r' s
        | EmptyString => match_seq r' s
        end
  end.

Fixpoint match_alt (alts : list seq) (s : string) : option string :=
  match alts with
  | [] => None
  | r :: alts' =>
      match match_seq r s with
      | Some rest => Some rest
      | None => match_alt alts' s
      end
  end.

(** The text a match starting at [s] and leaving [rest] has consumed. *)
Definition matched (s rest : string) : string :=
  substring 0 (length s - length rest) s.

(** [pattern.finditer(s)], as the list of [m.group(0)].  [skip] counts the
    characters of the current match still to be passed over. *)
Fixpoint finditer_from (alts : list seq) (skip : nat) (s : string) : list string :=
  match s with
  | EmptyString =>
      match skip, match_alt alts EmptyString with
      | 0, Some _ => [EmptyString]
      | _, _ => []
      end
  | String c s' =>
      match skip with
      | S k => finditer_from alts k s'
      | 0 =>
          match match_alt alts s with
          | Some rest =>
              matched s rest :: finditer_from alts (length s - length rest - 1) s'
          | None => finditer_from alts 0 s'
          end
      end
  end.

Definition finditer (alts : list seq) (s : string) : list string :=
  finditer_from alts 0 s.

(** [pattern.sub(repl, s)] for a function [repl] of [m.group(0)]. *)
Fixpoint sub_from (alts : list seq) (repl : string -> string) (skip : nat)
    (s : string) : string :=
  match s with
  | EmptyString =>
      match skip, match_alt alts EmptyString with
      | 0, Some _ => repl EmptyString
      | _, _ => EmptyString
      end
  | String c s' =>
      match skip with
      | S k => sub_from alts repl k s'
      | 0 =>
          match match_alt alts s with
          | Some rest =>
              match length s - length rest with
              | 0 => repl EmptyString ++ String c (sub_from alts repl 0 s')
              | S k => repl (matched s rest) ++ sub_from alts repl k s'
              end
          | None => String c (sub_from alts repl 0 s')
          end
      end
  end.

Definition sub (alts : list seq) (repl : string -> string) (s : string) : string :=
  sub_from alts repl 0 s.

(** [pattern.search(s)]: the leftmost match, as the text from its start and
    the text after it. *)
Fixpoint search (alts : list seq) (s : string) : option (string * string) :=
  match match_alt alts s with
  | Some rest => Some (s, rest)
  | None =>
      match s with
      | EmptyString => None
      | String _ s' => search alts s'
      end
  end.

(** The texts a sequence can match, without the order of preference. *)
Inductive Matches : seq -> string -> Prop :=
| M_nil : Matches [] EmptyString
| M_one p r c m : p c = true -> Matches r m -> Matches (One p :: r) (String c m)
| M_star p r run m :
    Py.all_chars p run = true -> Matches r m -> Matches (Star p :: r) (run ++ m).

(** Character tests *)
Definition lit (a : ascii) : ascii -> bool := fun c => Ascii.eqb c a.
(** a letter of the pattern under [re.IGNORECASE] *)
Definition ci (a : ascii) : ascii -> bool := fun c => Ascii.eqb (Py.lower_char c) a.
Definition ws : ascii -> bool := Py.isspace.
Definition alpha (c : ascii) : bool :=
  Py.between 97 122 (Py.code c) || Py.between 65 90 (Py.code c).
Definition digit (c : ascii) : bool := Py.between 48 57 (Py.code c).
Definition alnum (c : ascii) : bool := alpha c || digit c.

End Re.

(** ** scraper.py: text extraction *)

(** [[a-zA-Z0-9_.+-]] *)
Definition local_char (c : ascii) : bool :=
  Re.alnum c || Re.lit "_" c || Re.lit "." c || Re.lit "+" c || Re.lit "-" c.
(** [[a-zA-Z0-9-]] *)
Definition label_char (c : ascii) : bool := Re.alnum c || Re.lit "-" c.
(** [[a-zA-Z0-9-.]] *)
Definition tail_char (c : ascii) : bool :=
  Re.alnum c || Re.lit "-" c || Re.lit "." c.

Definition EMAIL_REGEX : list Re.seq :=
  [ Re.plus local_char ++ [Re.One (Re.lit "@")] ++ Re.plus label_char
    ++ [Re.One (Re.lit ".")] ++ Re.plus tail_char ]%list.

(** [mailto:([^?]+)] *)
Definition MAILTO_REGEX : list Re.seq :=
  [ [Re.One (Re.lit "m"); Re.One (Re.lit "a"); Re.One (Re.lit "i");
     Re.One (Re.lit "l"); Re.One (Re.lit "t"); Re.One (Re.lit "o");
     Re.One (Re.lit ":")] ++ Re.plus (fun c => negb (Re.lit "?" c)) ]%list.

Definition OBFUSCATION : list Re.seq :=
  [ (* \s*\[\s*at\s*\]\s* *)
    [Re.Star Re.ws; Re.One (Re.lit "["); Re.Star Re.ws; Re.One (Re.ci "a");
     Re.One (Re.ci "t"); Re.Star Re.ws; Re.One (Re.lit "]"); Re.Star Re.ws];
    (* \s*\(\s*at\s*\)\s* *)
    [Re.Star Re.ws; Re.One (Re.lit "("); Re.Star Re.ws; Re.One (Re.ci "a");
     Re.One (Re.ci "t"); Re.Star Re.ws; Re.One (Re.lit ")"); Re.Star Re.ws];
    (* \s+at\s+ *)
    (Re.plus Re.ws ++ [Re.One (Re.ci "a"); Re.One (Re.ci "t")] ++ Re.plus Re.ws)%list;
    (* \s*\[dot\]\s* *)
    [Re.Star Re.ws; Re.One (Re.lit "["); Re.One (Re.ci "d"); Re.One (Re.ci "o");
     Re.One (Re.ci "t"); Re.One (Re.lit "]"); Re.Star Re.ws];
    (* \s*\(\s*dot\s*\)\s* *)
    [Re.Star Re.ws; Re.One (Re.lit "("); Re.Star Re.ws; Re.One (Re.ci "d");
     Re.One (Re.ci "o"); Re.One (Re.ci "t"); Re.Star Re.ws; Re.One (Re.lit ")");
     Re.Star Re.ws];
    (* \s+dot\s+ *)
    (Re.plus Re.ws ++ [Re.One (Re.ci "d"); Re.One (Re.ci "o"); Re.One (Re.ci "t")]
       ++ Re.plus Re.ws)%list ].

(** [s.replace(old, new)] for a non-empty [old]. *)
Fixpoint replace_from (old new : string) (skip : nat) (s : string) : string :=
  match s with
  | EmptyString => EmptyString
  | String c s' =>
      match skip with
      | S k => replace_from old new k s'
      | 0 =>
          if Py.startswith old s then new ++ replace_from old new (length old - 1) s'
          else String c (replace_from old new 0 s')
      end
  end.

Definition replace (old new s : string) : string := replace_from old new 0 s.

Definition obfuscation_repl (m : string) : string :=
  if Py.contains "at" (Py.lower m) then "@" else ".".

Definition clean_obfuscated_email (text : string) : string :=
  let t := Re.sub OBFUSCATION obfuscation_repl text in
  replace " (dot) " "." (replace " [dot] " "." (replace " (at) " "@"
    (replace " [at] " "@" t))).

(** The set, as the list of the distinct matches. *)
Definition extract_emails_from_text (text : string) : list string :=
  nodup string_dec (Re.finditer EMAIL_REGEX (clean_obfuscated_email text)).

(** The form of a match of [EMAIL_REGEX]: local part, [@], first label,
    a dot, and the rest. *)
Definition email_shaped (e : string) : Prop :=
  exists l1 L d1 D t1 T,
    e = String l1 (L ++ String "@" (String d1 (D ++ String "." (String t1 T))))
    /\ local_char l1 = true /\ Py.all_chars local_char L = true
    /\ label_char d1 = true /\ Py.all_chars label_char D = true
    /\ tail_char t1 = true /\ Py.all_chars tail_char T = true.

(** A character no alternative of [OBFUSCATION] can start on or step over:
    neither white space nor an opening bracket. *)
Definition plain (c : ascii) : bool :=
  negb (Re.ws c) && negb (Re.lit "[" c) && negb (Re.lit "(" c).

(** An item of a joined list: plain characters, at least four. *)
Definition address_like (e : string) : Prop :=
  Py.all_chars plain e = true
  /\ exists c1 c2 c3 c4 e', e = String c1 (String c2 (String c3 (String c4 e'))).

(** [" ".join(l)] *)
Definition join_spaces (l : list string) : string := String.concat " " l.

(** What [join_spaces] puts after the first item. *)
Definition join_rest (l : list string) : string :=
  match l with
  | [] => EmptyString
  | _ => String " " (join_spaces l)
  end.

(** Neither opening bracket. *)
Definition no_bracket (c : ascii) : bool :=
  negb (Re.lit "[" c) && negb (Re.lit "(" c).

(** ** scraper.py: guessing *)

(** [s.split()] *)
Fixpoint split_ws_from (tok s : string) : list string :=
  match s with
  | EmptyString => if Py.truthy tok then [tok] else []
  | String c s' =>
      if Py.isspace c
      then (if Py.truthy tok then tok :: split_ws_from EmptyString s'
            else split_ws_from EmptyString s')
      else split_ws_from (tok ++ String c EmptyString) s'
  end.

Definition split_ws (s : string) : list string := split_ws_from EmptyString s.

(** [re.sub(r"[^a-zA-Z\s]", "", s)] *)
Fixpoint keep_letters_spaces (s : string) : string :=
  match s with
  | EmptyString => EmptyString
  | String c s' =>
      if Re.alpha c || Py.isspace c then String c (keep_letters_spaces s')
      else keep_letters_spaces s'
  end.

(** [s[0] if s else ""] *)
Definition first_letter (s : string) : string :=
  match s with
  | EmptyString => EmptyString
  | String c _ => String c EmptyString
  end.

(** The local parts [guess_emails] builds from the tokens of the name. *)
Definition guess_bases (parts : list string) : list string :=
  match parts with
  | [] => []      (* not reached: a non-empty stripped name has a token *)
  | first :: _ =>
      let last := if 1 <? List.length parts then List.last parts "" else "" in
      let fl := first_letter first in
      let ll := first_letter last in
      let with_last :=
        if Py.truthy last
        then [first ++ "." ++ last; first ++ last; fl ++ last; first ++ ll;
              first ++ "_" ++ last; first ++ "-" ++ last]
        else [] in
      app with_last [first]
  end.

Definition guess_name (full_name : string) : string :=
  Py.lower (Py.strip (keep_letters_spaces full_name)).

Definition guess_emails (full_name domain : string) : list string :=
  if negb (Py.truthy domain) || negb (Py.truthy full_name) then []
  else
    let name := guess_name full_name in
    if negb (Py.truthy name) then []
    else
      nodup string_dec
        (map (fun b => b ++ "@" ++ domain) (guess_bases (split_ws name))).

(** ** scraper.py: the network *)

(** [int(s)] for a [str]: surrounding whitespace, a sign, decimal digits
    with single underscores between them, at most [INT_MAX_STR_DIGITS]
    digits. *)

(** The white space [int] removes around the literal: tab to carriage
    return and the space, and NEL and the no-break space; the separators
    28 to 31, which [str.strip] removes, are not among them. *)
Definition int_space (c : ascii) : bool :=
  let n := Py.code c in
  Py.between 9 13 n || (n =? 32) || (n =? 133) || (n =? 160).

Fixpoint lstrip_by (p : ascii -> bool) (s : string) : string :=
  match s with
  | EmptyString => EmptyString
  | String c s' => if p c then lstrip_by p s' else s
  end.

Fixpoint rstrip_by (p : ascii -> bool) (s : string) : string :=
  match s with
  | EmptyString => EmptyString
  | String c s' =>
      match rstrip_by p s' with
      | EmptyString => if p c then EmptyString else String c EmptyString
      | r => String c r
      end
  end.

(** [sys.get_int_max_str_digits()], CPython's default: a literal with more
    digits raises ValueError. *)
Definition INT_MAX_STR_DIGITS : Z := 4300.

Fixpoint digit_count (s : string) : Z :=
  match s with
  | EmptyString => 0
  | String c s' => (if Re.digit c then 1 else 0) + digit_count s'
  end.

Fixpoint int_digits (acc : Z) (after_digit : bool) (s : string) : option Z :=
  match s with
  | EmptyString => if after_digit then Some acc else None
  | String c s' =>
      if Re.digit c
      then int_digits (10 * acc + Z.of_nat (Py.code c - 48)) true s'
      else if Re.lit "_" c && after_digit then int_digits acc false s'
      else None
  end.

(** The digits after the sign; [None]: ValueError. *)
Definition int_body (s : string) : option Z :=
  if (INT_MAX_STR_DIGITS <? digit_count s)%Z then None
  else int_digits 0 false s.

Definition py_int (s : string) : option Z :=
  match rstrip_by int_space (lstrip_by int_space s) with
  | String "+" r => int_body r
  | String "-" r => option_map Z.opp (int_body r)
  | t => int_body t
  end.

(** [str(n)] for an [int] *)
Definition py_str (n : Z) : string := NilZero.string_of_int (Z.to_int n).

(** What [BeautifulSoup(r.text, "html.parser")] gives the fetcher. *)
Record Page := mkPage {
  mailto_hrefs : list string;   (* href of each [a[href^="mailto:"]] *)
  page_text : string;           (* [soup.get_text(separator=" ", strip=True)] *)
  meta_contents : list string;  (* [m.get("content", "")] of each meta tag *)
  anchor_hrefs : list string    (* href of each [a] that has one *)
}.

Inductive HeadResult :=
| HeadRaised (exn : string)
| HeadOk (content_length : option string).   (* the Content-Length header *)

(** [http_get] and, for a status below 400, the parse of the body;
    [GetRaised] stands for an exception of either. *)
Inductive GetResult :=
| GetRaised (exn : string)
| GetOk (status_code : Z) (final_url : string) (page : Page).

(** One pass of the host loop.  The function returns from inside the
    [with smtplib.SMTP(...)] block, so the QUIT that ends the block comes
    before the return takes effect. *)
Inductive SmtpResult :=
| SmtpReply (rcpt_code : Z)   (* the session reached RCPT, and the QUIT was
                                 answered 221 or found the server gone *)
| SmtpFailed                  (* SMTPException, timeout or ConnectionError
                                 before the RCPT reply *)
| SmtpQuitFailed (rcpt_code : Z). (* the session reached RCPT, and the QUIT
                                 got another reply or timed out: a caught
                                 exception replaces the return *)

Record Profile := mkProfile {
  p_full_name : string;
  p_biography : string;
  p_external_url : string
}.

(** The world outside the program during one run. *)
Record World := mkWorld {
  http_head : string -> HeadResult;
  http_get : string -> GetResult;
  urljoin : string -> string -> string;
  tld_extract : string -> string * string;       (* domain, suffix *)
  dns_mx : string -> option (list string);       (* MX hosts, [None]: raised *)
  smtp_session : string -> string -> SmtpResult; (* host, recipient *)
  profile_from_username : string -> string + Profile  (* exception name or profile *)
}.

Inductive Event :=
| EvHead (url : string)
| EvGet (url : string)
| EvDns (domain : string)
| EvSmtp (host : string).

(** Command-line arguments of the scraper that the model uses. *)
Record Args := mkArgs {
  max_site_bytes : Z;
  max_deep_links : Z;
  smtp_verify : bool
}.

Definition AGGREGATOR_DOMAINS : list string :=
  ["linktr.ee"; "bio.site"; "beacons.ai"; "bit.ly"; "campsite.bio"; "msha.ke";
   "withkoji.com"; "stan.store"].

Definition SOCIAL_DOMAINS : list string :=
  ["instagram.com"; "facebook.com"; "fb.com"; "youtube.com"; "youtu.be";
   "tiktok.com"; "x.com"; "twitter.com"; "pinterest.com"; "patreon.com";
   "substack.com"].

Definition in_set (x : string) (l : list string) : bool :=
  existsb (String.eqb x) l.

Definition is_aggregator_or_social (domain : string) : bool :=
  in_set domain AGGREGATOR_DOMAINS || in_set domain SOCIAL_DOMAINS.

Definition domain_from_url (w : World) (url : string) : option string :=
  if negb (Py.truthy url) then None
  else
    let (d, suffix) := tld_extract w url in
    if negb (Py.truthy d) || negb (Py.truthy suffix) then None
    else Some (d ++ "." ++ suffix).

Definition mx_exists (w : World) (domain : string) : bool :=
  match dns_mx w domain with Some _ => true | None => false end.

(** [m.group(1)] of [MAILTO_REGEX.search(href)] *)
Definition mailto_address (href : string) : option string :=
  match Re.search MAILTO_REGEX href with
  | Some (from, rest) => Some (substring 7 (length from - length rest - 7) from)
  | None => None
  end.

Fixpoint mailto_addresses (hrefs : list string) : list string :=
  match hrefs with
  | [] => []
  | h :: hs =>
      match mailto_address h with
      | Some a => a :: mailto_addresses hs
      | None => mailto_addresses hs
      end
  end.

Definition regular_links (w : World) (base : string) (hrefs : list string)
  : list string :=
  map (urljoin w base)
      (filter (fun h => negb (Py.startswith "#" h || Py.startswith "mailto:" h)) hrefs).

(** The fetcher: the network events it causes, then its triple. *)
Definition extract_emails_and_links_from_url (w : World) (url : string)
    (max_bytes : Z) : list Event * (list string * list string * string) :=
  match http_head w url with
  | HeadRaised exn => ([EvHead url], ([], [], "error:" ++ exn))
  | HeadOk cl =>
      let header := match cl with Some v => v | None => "0" end in
      match (if Py.truthy header then py_int header else Some 0%Z) with
      | None => ([EvHead url], ([], [], "error:ValueError"))
      | Some size =>
          if negb (size =? 0)%Z && (max_bytes <? size)%Z
          then ([EvHead url], ([], [], "skip_large:" ++ py_str size))
          else
            match http_get w url with
            | GetRaised exn => ([EvHead url; EvGet url], ([], [], "error:" ++ exn))
            | GetOk status final page =>
                if (400 <=? status)%Z
                then ([EvHead url; EvGet url], ([], [], "http_" ++ py_str status))
                else
                  let blob := join_spaces (page_text page :: meta_contents page) in
                  let emails :=
                    nodup string_dec
                      (app (mailto_addresses (mailto_hrefs page))
                           (extract_emails_from_text blob)) in
                  let links :=
                    nodup string_dec (regular_links w final (anchor_hrefs page)) in
                  ([EvHead url; EvGet url], (emails, links, "ok"))
            end
      end
  end.

(** The host loop of [smtp_handshake_check]. *)
Fixpoint smtp_try_hosts (w : World) (em : string) (hosts : list string)
  : list Event * (string * string) :=
  match hosts with
  | [] => ([], ("unknown", "mx_unreachable"))
  | host :: hosts' =>
      match smtp_session w host em with
      | SmtpReply rcpt =>
          if (200 <=? rcpt)%Z && (rcpt <? 300)%Z
          then ([EvSmtp host], ("accepted", host))
          else if (500 <=? rcpt)%Z && (rcpt <? 600)%Z
          then ([EvSmtp host], ("refused", host ++ ":" ++ py_str rcpt))
          else ([EvSmtp host], ("unknown", host ++ ":" ++ py_str rcpt))
      | SmtpFailed | SmtpQuitFailed _ =>
          let (ev, res) := smtp_try_hosts w em hosts' in
          (EvSmtp host :: ev, res)
      end
  end.

Definition smtp_handshake_check (w : World) (em : string)
  : list Event * (string * string) :=
  match Py.split_first "@" em with
  | None => ([], ("unknown", "bad_email"))
  | Some (_, domain) =>
      match dns_mx w domain with
      | None => ([EvDns domain], ("unknown", "no_mx"))
      | Some mx_hosts =>
          let (ev, res) := smtp_try_hosts w em mx_hosts in
          (EvDns domain :: ev, res)
      end
  end.

(** ** scraper.py: the per-profile loop of [main] *)

(** [str(b)] for a [bool] *)
Definition py_str_bool (b : bool) : string := if b then "True" else "False".

(** [sorted(l)] on strings *)
Fixpoint insert_sorted (x : string) (l : list string) : list string :=
  match l with
  | [] => [x]
  | y :: l' => if String.leb x y then x :: l else y :: insert_sorted x l'
  end.

Definition py_sorted (l : list string) : list string :=
  fold_right insert_sorted [] l.

(** [s.add(x)] on a set kept as a list without repetition *)
Definition set_add (x : string) (s : list string) : list string :=
  if in_set x s then s else app s [x].

(** The verification every loop of [main] runs on a candidate: the network
    events, then [mx_ok], [smtp_status] and [smtp_note]. *)
Definition candidate_check (w : World) (a : Args) (em : string)
  : list Event * (bool * string * string) :=
  let domain := Py.after_last "@" em in
  let mx_ok := mx_exists w domain in
  if smtp_verify a && mx_ok
  then let '(ev, (status, note)) := smtp_handshake_check w em in
       (EvDns domain :: ev, (mx_ok, status, note))
  else ([EvDns domain], (mx_ok, "", "")).

(** The row written for a candidate. *)
Definition candidate_row (w : World) (a : Args) (u full ext em src : string)
  : Row :=
  let '(mx_ok, status, note) := snd (candidate_check w a em) in
  mkRow u full ext em src (py_str_bool mx_ok) status note.

Definition candidate_step (w : World) (cd : Py.dict string) (link : string)
  : Py.dict string :=
  match domain_from_url w link with
  | None => cd
  | Some d =>
      if negb (Py.truthy d) || is_aggregator_or_social d then cd
      else if Py.mem d cd then cd
      else Py.set d link cd
  end.

Definition candidate_domains (w : World) (links : list string) : Py.dict string :=
  fold_left (candidate_step w) links [].

(** The deep crawl: the rows written and the personal domains found. *)
Fixpoint deep_crawl (w : World) (a : Args) (u full : string)
    (items : list (string * string)) (deep_count : Z) (personal : list string)
  : list Row * list string :=
  match items with
  | [] => ([], personal)
  | (dom, link) :: items' =>
      if (max_deep_links a <=? deep_count)%Z then ([], personal)
      else
        let '(deep_emails, _, _) :=
          snd (extract_emails_and_links_from_url w link (max_site_bytes a)) in
        let personal' :=
          match deep_emails with [] => personal | _ => set_add dom personal end in
        let rows :=
          map (fun em => candidate_row w a u full link em "site_deep") deep_emails in
        let '(rows', personal'') :=
          deep_crawl w a u full items' (deep_count + 1) personal' in
        (app rows rows', personal'')
  end.

Definition guess_rows (w : World) (a : Args) (u full : string)
    (personal : list string) : list Row :=
  flat_map
    (fun dom =>
       if negb (mx_exists w dom) then []
       else map (fun em => candidate_row w a u full ("https://" ++ dom) em
                             "guess_personal")
                (py_sorted (guess_emails full dom)))
    personal.

Definition process_profile (w : World) (a : Args) (u : string) : list Row :=
  match profile_from_username w u with
  | inl exn => [mkRow u "" "" "" "error" "" "" ("profile_error:" ++ exn)]
  | inr profile =>
      let full := p_full_name profile in
      let ext_url := p_external_url profile in
      let bio_rows :=
        map (fun em => candidate_row w a u full ext_url em "bio")
            (extract_emails_from_text (p_biography profile)) in
      if negb (Py.truthy ext_url) then bio_rows
      else
        let '(site_emails, links, _) :=
          snd (extract_emails_and_links_from_url w ext_url (max_site_bytes a)) in
        let site_rows :=
          map (fun em => candidate_row w a u full ext_url em "site") site_emails in
        let '(deep_rows, personal) :=
          deep_crawl w a u full (candidate_domains w links) 0 [] in
        app bio_rows (app site_rows (app deep_rows (guess_rows w a u full personal)))
  end.

(** The rows [main] writes for the user names of the input file. *)
Definition main (w : World) (a : Args) (users : list string) : list Row :=
  flat_map (process_profile w a) users.

(** ** A sample run

    One profile whose link page leads to a personal site with a contact
    address, and two pages that advertise a length. *)

Definition sample_profile : Profile :=
  mkProfile "Jane Doe" "write me: jane [at] janedoe [dot] art"
            "https://linktr.ee/jane".

Definition sample_world : World :=
  mkWorld
    (fun url =>
       if String.eqb url "https://big.test/video" then HeadOk (Some "2000000")
       else if String.eqb url "https://zero.test/" then HeadOk (Some "0")
       else HeadOk None)
    (fun url =>
       if String.eqb url "https://linktr.ee/jane"
       then GetOk 200 url
              (mkPage [] "my links" []
                      ["https://janedoe.art/contact"; "https://instagram.com/jane"])
       else if String.eqb url "https://janedoe.art/contact"
       then GetOk 200 url
              (mkPage ["mailto:hello@janedoe.art?subject=hi"] "contact" [] [])
       else GetOk 200 url (mkPage [] "" [] []))
    (fun _ href => href)
    (fun url =>
       if String.eqb url "https://janedoe.art/contact" then ("janedoe", "art")
       else if String.eqb url "https://instagram.com/jane" then ("instagram", "com")
       else ("", ""))
    (fun d => if String.eqb d "janedoe.art" then Some ["mx.janedoe.art"] else None)
    (fun _ _ => SmtpReply 250)
    (fun u => if String.eqb u "jane" then inr sample_profile
              else inl "ProfileNotExistsException").

Definition sample_args : Args := mkArgs 1000000 5 true.

Definition sample_guess_row : Row :=
  mkRow "jane" "Jane Doe" "https://janedoe.art" "jdoe@janedoe.art"
        "guess_personal" "True" "accepted" "mx.janedoe.art".

(** Records for the filter stage. *)
Definition row_placeholder : Row :=
  mkRow "u" "U" "" "Info@Example.COM" "bio" "True" "" "".

Definition row_plain : Row :=
  mkRow "u" "U" "" "jane@foo.org" "guess_personal" "True" "" "".

Definition row_example_au : Row :=
  mkRow "u" "U" "" "user@example.com.au" "bio" "True" "" "".

Definition row_legit : Row :=
  mkRow "v" "V" "" "Example.com@legit.org" "site" "True" "" "".

(** ** Further definitions for the properties of the code *)

(** The distinct elements of a list, each at its first occurrence. *)
Fixpoint first_occurrences (l : list string) : list string :=
  match l with
  | [] => []
  | x :: l' => x :: remove string_dec x (first_occurrences l')
  end.

(** [cur] is, among the records of handle [h] in [seen], the earliest one
    of least rank; [None] when there is none. *)
Definition earliest_best (h : string) (seen : list Row) (cur : option Row) : Prop :=
  match cur with
  | None => forall r, In r seen -> username r <> h
  | Some b =>
      username b = h
      /\ exists p q,
           seen = app p (b :: q)
           /\ (forall r, In r p -> username r = h ->
                 (priority_value (source b) < priority_value (source r))%Z)
           /\ (forall r, In r q -> username r = h ->
                 (priority_value (source b) <= priority_value (source r))%Z)
  end.

(** [[a-z]] *)
Definition lower_letter (c : ascii) : bool := Py.between 97 122 (Py.code c).

(** The characters of a guessed local part. *)
Definition guess_char (c : ascii) : bool :=
  lower_letter c || Re.lit "." c || Re.lit "_" c || Re.lit "-" c.

(** A world whose size probe advertises a length that is no integer. *)
Definition sample_world_bad_length : World :=
  mkWorld (fun _ => HeadOk (Some "1.5e6")) (http_get sample_world)
          (urljoin sample_world) (tld_extract sample_world)
          (dns_mx sample_world) (smtp_session sample_world)
          (profile_from_username sample_world).


(** [s.lstrip(ch)] for a single character *)
Fixpoint lstrip_char (ch : ascii) (s : string) : string :=
  match s with
  | EmptyString => EmptyString
  | String c s' => if Ascii.eqb c ch then lstrip_char ch s' else s
  end.

(** [load_usernames], on the lines of the file. *)
Fixpoint load_usernames (lines : list string) : list string :=
  match lines with
  | [] => []
  | line :: lines' =>
      let s := Py.strip line in
      if negb (Py.truthy s) || Py.startswith "#" s then load_usernames lines'
      else lstrip_char "@" s :: load_usernames lines'
  end.

(** [save_output]: the rows written to emails_clean.csv, [None] when the
    function returns without opening the file. *)
Definition save_output (rows : list Row) : option (list Row) :=
  match rows with
  | [] => None
  | _ => Some rows
  end.

(** [main] of cleaner.py on the rows of emails.csv. *)
Definition cleaner_main (rows : list Row) : option (list Row) :=
  save_output (select_best (clean_rows rows)).

(** ** sender.py: the recipients of a run *)

(** The rows read from the CSV: those whose address is not blank. *)
Definition sender_rows (rows : list Row) : list Row :=
  filter (fun r => Py.truthy (Py.strip (email r))) rows.

(** [--only-verified]: mx is true and the status is accepted or unknown. *)
Definition sender_verified (r : Row) : bool :=
  String.eqb (Py.lower (mx r)) "true"
  && (String.eqb (smtp_status r) "accepted" || String.eqb (smtp_status r) "unknown").

(** The selection loop, with the addresses seen and the number selected so
    far. *)
Fixpoint sender_select (only_verified : bool) (limit : Z) (rows : list Row)
    (seen : list string) (selected : Z) : list Row :=
  match rows with
  | [] => []
  | r :: rows' =>
      let em := Py.lower (email r) in
      if in_set em seen then sender_select only_verified limit rows' seen selected
      else if only_verified && negb (sender_verified r)
      then sender_select only_verified limit rows' seen selected
      else
        r :: (if (limit <=? selected + 1)%Z then []
              else sender_select only_verified limit rows' (set_add em seen)
                                 (selected + 1))
  end.

Definition sender_selected (only_verified : bool) (limit : Z) (rows : list Row)
  : list Row :=
  sender_select only_verified limit (sender_rows rows) [] 0.

(** * Proofs *)

(** ** Dictionaries *)

Section DictFacts.
Context {V : Type}.
Implicit Types (d : Py.dict V) (k : string) (v : V).

Lemma get_set_same d k v : Py.get k (Py.set k v d) = Some v.
Proof.
  induction d as [|[k' v'] d IH]; simpl.
  - now rewrite String.eqb_refl.
  - destruct (String.eqb k' k) eqn:E; simpl.
    + now rewrite String.eqb_refl.
    + now rewrite E.
Qed.

Lemma get_set_other d k k' v :
  k <> k' -> Py.get k' (Py.set k v d) = Py.get k' d.
Proof.
  intros Hne. induction d as [|[k0 v0] d IH]; simpl.
  - apply String.eqb_neq in Hne. now rewrite Hne.
  - destruct (String.eqb k0 k) eqn:E; simpl.
    + apply String.eqb_eq in E. subst k0.
      apply String.eqb_neq in Hne. now rewrite Hne.
    + now rewrite IH.
Qed.

Lemma get_none_keys d k : Py.get k d = None <-> ~ In k (Py.keys d).
Proof.
  induction d as [|[k0 v0] d IH]; simpl.
  - tauto.
  - destruct (String.eqb k0 k) eqn:E.
    + apply String.eqb_eq in E. split; [discriminate | tauto].
    + apply String.eqb_neq in E. rewrite IH. tauto.
Qed.

Lemma keys_set d k v :
  Py.keys (Py.set k v d)
  = match Py.get k d with Some _ => Py.keys d | None => app (Py.keys d) [k] end.
Proof.
  induction d as [|[k0 v0] d IH]; simpl; [reflexivity|].
  destruct (String.eqb k0 k) eqn:E; simpl.
  - apply String.eqb_eq in E. now subst.
  - rewrite IH. now destruct (Py.get k d).
Qed.

Lemma in_set_inv d k v k0 v0 :
  In (k0, v0) (Py.set k v d) -> (k, v) = (k0, v0) \/ In (k0, v0) d.
Proof.
  induction d as [|[k1 v1] d IH]; simpl.
  - tauto.
  - destruct (String.eqb k1 k); simpl; intros [H|H]; auto.
    destruct (IH H); auto.
Qed.

Lemma NoDup_keys_set d k v :
  NoDup (Py.keys d) -> NoDup (Py.keys (Py.set k v d)).
Proof.
  intros Hnd. rewrite keys_set. destruct (Py.get k d) eqn:E; [assumption|].
  apply get_none_keys in E.
  apply NoDup_app; [assumption | repeat constructor; simpl; tauto |].
  intros x Hx [<-|[]]. contradiction.
Qed.
End DictFacts.

(** ** The Reducer *)

Lemma keyed_step d r : keyed d -> keyed (select_step d r).
Proof.
  intros Hk. unfold select_step.
  assert (Hs : keyed (Py.set (username r) r d)).
  { intros k0 r0 Hin. apply in_set_inv in Hin as [Heq|Hin]; [|now apply Hk].
    now inversion Heq. }
  destruct (Py.get (username r) d); [|exact Hs].
  now destruct (_ <? _)%Z.
Qed.

Lemma NoDup_step d r : NoDup (Py.keys d) -> NoDup (Py.keys (select_step d r)).
Proof.
  intros Hnd. unfold select_step.
  destruct (Py.get (username r) d); [destruct (_ <? _)%Z|];
    auto using NoDup_keys_set.
Qed.

Lemma keys_step d r h :
  In h (Py.keys (select_step d r)) <-> In h (Py.keys d) \/ h = username r.
Proof.
  unfold select_step.
  destruct (Py.get (username r) d) eqn:E.
  - assert (Hin : In (username r) (Py.keys d)).
    { destruct (in_dec string_dec (username r) (Py.keys d)) as [|Hn]; auto.
      apply get_none_keys in Hn. congruence. }
    destruct (_ <? _)%Z; [rewrite keys_set, E|]; split; auto;
      intros [H| ->]; auto.
  - rewrite keys_set, E, in_app_iff. simpl. intuition congruence.
Qed.

Lemma fold_invariants rows : forall d,
  keyed d -> NoDup (Py.keys d) ->
  keyed (fold_left select_step rows d)
  /\ NoDup (Py.keys (fold_left select_step rows d))
  /\ forall h, In h (Py.keys (fold_left select_step rows d))
               <-> In h (Py.keys d) \/ In h (map username rows).
Proof.
  induction rows as [|r rows IH]; intros d Hk Hnd; simpl.
  - repeat split; auto; tauto.
  - destruct (IH (select_step d r) (keyed_step d r Hk) (NoDup_step d r Hnd))
      as (H1 & H2 & H3).
    repeat split; auto; rewrite H3, keys_step; intuition congruence.
Qed.

Lemma get_step d r h :
  Py.get h (select_step d r) = spec_replace h (Py.get h d) r.
Proof.
  unfold select_step, spec_replace.
  destruct (String.eqb (username r) h) eqn:E.
  - apply String.eqb_eq in E. subst h.
    destruct (Py.get (username r) d) eqn:G.
    + destruct (_ <? _)%Z; [apply get_set_same | assumption].
    + apply get_set_same.
  - apply String.eqb_neq in E.
    destruct (Py.get (username r) d) eqn:G;
      [destruct (_ <? _)%Z|]; auto using get_set_other.
Qed.

Lemma get_fold rows : forall d h,
  Py.get h (fold_left select_step rows d)
  = fold_left (spec_replace h) rows (Py.get h d).
Proof.
  induction rows as [|r rows IH]; intros d h; simpl; [reflexivity|].
  now rewrite IH, get_step.
Qed.

Lemma output_for_values d h :
  keyed d -> output_for h (Py.values d) = Py.get h d.
Proof.
  unfold output_for. induction d as [|[k r] d IH]; intros Hk; simpl.
  - reflexivity.
  - rewrite (Hk k r (or_introl eq_refl)).
    destruct (String.eqb k h); [reflexivity|].
    apply IH. intros k0 r0 Hin. apply Hk. now right.
Qed.

Lemma usernames_values d : keyed d -> map username (Py.values d) = Py.keys d.
Proof.
  unfold Py.values, Py.keys. induction d as [|[k r] d IH]; intros Hk; simpl.
  - reflexivity.
  - rewrite (Hk k r (or_introl eq_refl)). f_equal.
    apply IH. intros k0 r0 Hin. apply Hk. now right.
Qed.

Lemma keyed_nil : keyed [].
Proof. intros k r []. Qed.

Lemma select_best_sub rows r : In r (select_best rows) -> In r rows.
Proof.
  unfold select_best.
  assert (G : forall rs d, In r (Py.values (fold_left select_step rs d)) ->
                           In r (Py.values d) \/ In r rs).
  { induction rs as [|x rs IH]; intros d; simpl; [tauto|].
    intros H. apply IH in H as [H|H]; [|tauto].
    unfold select_step in H.
    assert (S : In r (Py.values (Py.set (username x) x d)) ->
                In r (Py.values d) \/ x = r).
    { unfold Py.values. rewrite !in_map_iff. intros [[k0 v0] [E Hin]].
      simpl in E. subst v0. apply in_set_inv in Hin as [Heq|Hin].
      - inversion Heq. tauto.
      - left. now exists (k0, r). }
    destruct (Py.get (username x) d); [destruct (_ <? _)%Z|]; tauto. }
  intros H. apply G in H as [[]|H]. exact H.
Qed.

(** C1: the record [select_best] returns for a handle is the one the
    replacement rule arrives at when the records are taken in input order
    (the first seen, replaced only by a strictly lower rank, the ranks being
    bio 1, site 2, site_deep 3, guess_personal 4 and 99 otherwise); three
    records of one handle with tiers site, bio, site_deep give the bio one,
    and of two bio records of one handle the first is kept. *)
Theorem select_best_replacement_rule :
  (forall rows h, output_for h (select_best rows) = spec_best h rows)
  /\ priority_value "bio" = 1%Z /\ priority_value "site" = 2%Z
  /\ priority_value "site_deep" = 3%Z /\ priority_value "guess_personal" = 4%Z
  /\ (forall t, t <> "bio" -> t <> "site" -> t <> "site_deep" ->
                t <> "guess_personal" -> priority_value t = 99%Z)
  /\ (forall x r1 r2 r3,
        select_best [with_tier x "site" r1; with_tier x "bio" r2;
                     with_tier x "site_deep" r3] = [with_tier x "bio" r2])
  /\ (forall x r1 r2,
        select_best [with_tier x "bio" r1; with_tier x "bio" r2]
        = [with_tier x "bio" r1]).
Proof.
  split; [|split; [|split; [|split; [|split; [|split; [|split]]]]]];
    try reflexivity.
  - intros rows h. unfold select_best, spec_best.
    destruct (fold_invariants rows [] keyed_nil (NoDup_nil _)) as (Hk & _ & _).
    now rewrite (output_for_values _ h Hk), get_fold.
  - intros t H1 H2 H3 H4. unfold priority_value.
    apply String.eqb_neq in H1, H2, H3, H4. now rewrite H1, H2, H3, H4.
  - intros x r1 r2 r3. unfold select_best. simpl.
    unfold select_step. simpl. rewrite !String.eqb_refl. simpl.
    now rewrite !String.eqb_refl.
  - intros x r1 r2. unfold select_best. simpl.
    unfold select_step. simpl. now rewrite !String.eqb_refl.
Qed.

Lemma select_best_replacement_rule_witness :
  priority_value "error" = 99%Z.
Proof.
  apply (proj1 (proj2 (proj2 (proj2 (proj2 (proj2 select_best_replacement_rule))))));
    discriminate.
Defined.

(** ** Strings *)

Lemma startswith_refl s : Py.startswith s s = true.
Proof.
  induction s as [|c s IH]; simpl; [reflexivity|].
  now rewrite Ascii.eqb_refl.
Qed.

Lemma contains_eq n h :
  Py.contains n h
  = Py.startswith n h || match h with "" => false | String _ h' => Py.contains n h' end.
Proof. now destruct h. Qed.

Lemma contains_refl s : Py.contains s s = true.
Proof. now rewrite contains_eq, startswith_refl. Qed.

Lemma contains_app_r n p h :
  Py.contains n h = true -> Py.contains n (p ++ h) = true.
Proof.
  intros H. induction p as [|c p IH]; simpl; [assumption|].
  rewrite IH. apply orb_true_r.
Qed.

Lemma lower_app a b : Py.lower (a ++ b) = Py.lower a ++ Py.lower b.
Proof. induction a as [|c a IH]; simpl; [reflexivity | now rewrite IH]. Qed.

Lemma after_last_suffix sep s : exists p, s = p ++ Py.after_last sep s.
Proof.
  induction s as [|c s [p IH]]; simpl.
  - now exists "".
  - destruct (Ascii.eqb c sep), (Py.contains (String sep "") s).
    + exists (String c p). simpl. now rewrite <- IH.
    + now exists (String c "").
    + exists (String c p). simpl. now rewrite <- IH.
    + now exists "".
Qed.

Lemma contains_char_not_all c p s :
  p c = false -> Py.contains (String c "") s = true -> Py.all_chars p s = false.
Proof.
  intros Hp. induction s as [|a s IH]; [discriminate|].
  rewrite contains_eq. cbn [Py.startswith Py.all_chars].
  destruct (Ascii.eqb c a) eqn:E.
  - apply Ascii.eqb_eq in E. subst a. now rewrite Hp.
  - cbn [andb orb]. intros H. rewrite (IH H). apply andb_false_r.
Qed.

Lemma rstrip_empty s : Py.rstrip s = "" -> Py.all_chars Py.isspace s = true.
Proof.
  induction s as [|c s IH]; simpl; [reflexivity|].
  destruct (Py.rstrip s); [|discriminate].
  destruct (Py.isspace c); [|discriminate]. intros _. now apply IH.
Qed.

Lemma lstrip_all s :
  Py.all_chars Py.isspace (Py.lstrip s) = true -> Py.all_chars Py.isspace s = true.
Proof.
  induction s as [|c s IH]; simpl; [reflexivity|].
  destruct (Py.isspace c) eqn:E; simpl; [assumption|].
  now rewrite E.
Qed.

Lemma strip_has_at em : Py.contains "@" em = true -> Py.strip em <> "".
Proof.
  intros H E. apply rstrip_empty, lstrip_all in E.
  now rewrite (contains_char_not_all "@" Py.isspace em eq_refl H) in E.
Qed.

(** ** The filter stage *)

Lemma is_valid_email_true em :
  is_valid_email em = true
  <-> em <> "" /\ Py.contains "example.com" (Py.lower em) = false
      /\ Py.contains "@" em = true.
Proof.
  unfold is_valid_email. destruct em as [|c em].
  - cbn. intuition congruence.
  - change (Py.truthy (String c em)) with true. cbv [negb].
    destruct (Py.contains "example.com" (Py.lower (String c em))).
    { intuition congruence. }
    destruct (Py.contains "@" (String c em)) eqn:A.
    + pose proof (strip_has_at _ A) as S. apply String.eqb_neq in S.
      rewrite S. intuition congruence.
    + destruct (String.eqb _ ""); intuition congruence.
Qed.

Lemma is_error_row_true r :
  is_error_row r = true
  <-> source r = "error" \/ Py.contains "profile_error" (smtp_note r) = true.
Proof.
  unfold is_error_row. destruct (String.eqb (source r) "error") eqn:E.
  - apply String.eqb_eq in E. tauto.
  - apply String.eqb_neq in E.
    destruct (Py.contains "profile_error" (smtp_note r)); intuition congruence.
Qed.

Lemma clean_rows_In rows r :
  In r (clean_rows rows) <-> In r rows /\ ~ filtered_out r.
Proof.
  unfold clean_rows, filtered_out. rewrite filter_In, andb_true_iff, negb_true_iff.
  rewrite is_valid_email_true.
  pose proof (is_error_row_true r) as He.
  destruct (is_error_row r).
  - split; [intros (_ & H & _); discriminate|].
    intros [_ H]. exfalso. apply H. destruct (proj1 He eq_refl); tauto.
  - assert (Hs : source r <> "error") by (intros H; destruct He as [_ He]; intuition congruence).
    assert (Hp : Py.contains "profile_error" (smtp_note r) <> true)
      by (intros H; destruct He as [_ He]; intuition congruence).
    destruct (Py.contains "@" (email r));
      destruct (Py.contains "example.com" (Py.lower (email r)));
      intuition congruence.
Qed.

Lemma reduce_sub rows r : In r (reduce rows) -> In r rows /\ ~ filtered_out r.
Proof. intros H. now apply clean_rows_In, select_best_sub. Qed.

Lemma placeholder_domain_filtered r :
  Py.lower (Py.after_last "@" (email r)) = "example.com" -> filtered_out r.
Proof.
  intros H. right; right; left.
  destruct (after_last_suffix "@" (email r)) as [p Hp].
  rewrite Hp, lower_app, H. apply contains_app_r, contains_refl.
Qed.

(** C3: the reduced log has no two records with one handle, and its handles
    are exactly the handles of the input records that pass the filter stage:
    none is invented and none is dropped. *)
Theorem reduce_handles (rows : list Row) :
  NoDup (map username (reduce rows))
  /\ forall h,
       In h (map username (reduce rows))
       <-> exists r, In r rows /\ username r = h
                     /\ is_error_row r = false
                     /\ is_valid_email (email r) = true.
Proof.
  unfold reduce, select_best.
  destruct (fold_invariants (clean_rows rows) [] keyed_nil (NoDup_nil _))
    as (Hk & Hnd & Hin).
  rewrite (usernames_values _ Hk). split; [exact Hnd|].
  intros h. rewrite Hin. simpl. rewrite in_map_iff. unfold clean_rows.
  split.
  - intros [[]|(r & Hu & Hr)]. apply filter_In in Hr as [Hr Hf].
    apply andb_true_iff in Hf as [He Hv]. apply negb_true_iff in He.
    now exists r.
  - intros (r & Hr & Hu & He & Hv). right. exists r. split; [assumption|].
    apply filter_In. now rewrite He, Hv.
Qed.

(** C4 (as amended): a record whose address is empty, lacks an [@], or
    holds "example.com" anywhere in its lower-cased form (in particular one
    whose domain is example.com), and a record with source "error" or with
    "profile_error" in its note, is absent from the reduced log whatever its
    tier; every other record passes the filter stage. *)
Theorem filter_stage (rows : list Row) (r : Row) :
  (filtered_out r -> ~ In r (reduce rows))
  /\ (Py.lower (Py.after_last "@" (email r)) = "example.com" -> filtered_out r)
  /\ (In r rows -> ~ filtered_out r -> In r (clean_rows rows)).
Proof.
  split; [|split].
  - intros Hf Hin. now apply reduce_sub in Hin.
  - apply placeholder_domain_filtered.
  - intros Hin Hf. now apply clean_rows_In.
Qed.

Lemma filter_stage_witness :
  ~ In row_placeholder (reduce [row_plain; row_placeholder])
  /\ In row_plain (clean_rows [row_plain; row_placeholder]).
Proof.
  destruct (filter_stage [row_plain; row_placeholder] row_placeholder)
    as (H1 & H2 & _).
  destruct (filter_stage [row_plain; row_placeholder] row_plain)
    as (_ & _ & H3).
  split.
  - apply H1, H2. reflexivity.
  - apply H3; [simpl; tauto|].
    unfold filtered_out. simpl. intuition discriminate.
Defined.

(** C4, as stated, fails: the address user@example.com.au is not empty, has
    an [@], its domain is example.com.au, the record is no error
    placeholder, and the filter stage removes it all the same. *)
Lemma filter_stage_counterexample :
  Py.truthy (email row_example_au) = true
  /\ Py.contains "@" (email row_example_au) = true
  /\ Py.after_last "@" (email row_example_au) = "example.com.au"
  /\ String.eqb (Py.lower (Py.after_last "@" (email row_example_au)))
                "example.com" = false
  /\ is_error_row row_example_au = false
  /\ clean_rows [row_example_au] = []
  /\ reduce [row_example_au] = [].
Proof. repeat split. Qed.

(** C10: a record whose lower-cased address holds "example.com" anywhere
    is not valid and is absent from the reduced log, as for
    user@example.com.au and example.com@legit.org. *)
Theorem substring_placeholder_rejected (rows : list Row) (r : Row) :
  Py.contains "example.com" (Py.lower (email r)) = true ->
  is_valid_email (email r) = false /\ ~ In r (reduce rows).
Proof.
  intros H. split.
  - destruct (is_valid_email (email r)) eqn:E; [|reflexivity].
    apply is_valid_email_true in E. intuition congruence.
  - intros Hin. apply reduce_sub in Hin as [_ Hf]. apply Hf.
    right; right; now left.
Qed.

Lemma substring_placeholder_rejected_witness :
  (is_valid_email "user@example.com.au" = false
   /\ ~ In row_example_au (reduce [row_example_au; row_legit]))
  /\ (is_valid_email "Example.com@legit.org" = false
      /\ ~ In row_legit (reduce [row_example_au; row_legit])).
Proof.
  split.
  - apply (substring_placeholder_rejected [row_example_au; row_legit] row_example_au).
    reflexivity.
  - apply (substring_placeholder_rejected [row_example_au; row_legit] row_legit).
    reflexivity.
Defined.

(** ** Text extraction on the two obfuscated samples *)

(** C6: the bracketed and the spelled-out obfuscation both decode:
    "john [at] example [dot] com" gives the set {"john@example.com"} and
    "john at example dot org" gives the set {"john@example.org"}. *)
Theorem extract_emails_obfuscated :
  extract_emails_from_text "john [at] example [dot] com" = ["john@example.com"]
  /\ extract_emails_from_text "john at example dot org" = ["john@example.org"].
Proof. split; vm_compute; reflexivity. Qed.

(** ** Guessing *)

Lemma split_ws_from_truthy s : forall tok,
  Forall (fun t => Py.truthy t = true) (split_ws_from tok s).
Proof.
  induction s as [|c s IH]; intros tok; simpl.
  - destruct (Py.truthy tok) eqn:E; auto.
  - destruct (Py.isspace c); [|apply IH].
    destruct (Py.truthy tok) eqn:E; auto.
Qed.

Lemma last_In (l : list string) d : l <> [] -> In (List.last l d) l.
Proof.
  induction l as [|x l IH]; [congruence|]. intros _.
  destruct l as [|y l]; [now left|].
  right. apply IH. discriminate.
Qed.

Lemma guess_bases_two first second rest :
  let parts := first :: second :: rest in
  Py.truthy (List.last parts "") = true ->
  guess_bases parts
  = [first ++ "." ++ List.last parts ""; first ++ List.last parts "";
     first_letter first ++ List.last parts "";
     first ++ first_letter (List.last parts "");
     first ++ "_" ++ List.last parts ""; first ++ "-" ++ List.last parts "";
     first].
Proof.
  intros parts Ht. unfold guess_bases. fold parts.
  change (1 <? List.length parts) with true. cbv iota. now rewrite Ht.
Qed.

(** C7: the guesses for "Jane Doe" at foo.com hold jane.doe, janedoe, jdoe,
    janed and jane at foo.com; and whenever the cleaned name has more than
    one token (so [last] is non-empty) the base set holds first.last,
    firstlast, fl+last, first+ll, first_last, first-last and first, and for
    a non-empty domain each of them followed by @domain is a guess. *)
Theorem guess_emails_patterns :
  incl ["jane.doe@foo.com"; "janedoe@foo.com"; "jdoe@foo.com"; "janed@foo.com";
        "jane@foo.com"]
       (guess_emails "Jane Doe" "foo.com")
  /\ forall name domain,
       let parts := split_ws (guess_name name) in
       let first := hd "" parts in
       let last := List.last parts "" in
       let bases := [first ++ "." ++ last; first ++ last;
                     first_letter first ++ last; first ++ first_letter last;
                     first ++ "_" ++ last; first ++ "-" ++ last; first] in
       1 < List.length parts ->
       last <> ""
       /\ incl bases (guess_bases parts)
       /\ (domain <> "" ->
           incl (map (fun b => b ++ "@" ++ domain) bases)
                (guess_emails name domain)).
Proof.
  split.
  - intros e He. vm_compute in He. vm_compute. tauto.
  - intros name domain parts first last bases Hlen.
    assert (Hdef : parts = split_ws (guess_name name)) by reflexivity.
    clearbody parts.
    assert (Hparts : exists f s r, parts = f :: s :: r).
    { destruct parts as [|f [|s r]]; simpl in Hlen; try lia. eauto. }
    destruct Hparts as (f & s & r & Hp).
    assert (Ht : Py.truthy last = true).
    { pose proof (split_ws_from_truthy (guess_name name) "") as HF.
      rewrite Forall_forall in HF. apply HF. fold (split_ws (guess_name name)).
      rewrite <- Hdef. apply last_In. rewrite Hp. discriminate. }
    assert (Hb : guess_bases parts = bases).
    { subst bases first last. rewrite Hp in *. now apply guess_bases_two. }
    split; [|split].
    + intros E. now rewrite E in Ht.
    + rewrite Hb. apply incl_refl.
    + intros Hd. unfold guess_emails.
      destruct domain as [|d0 domain]; [congruence|].
      destruct name as [|n0 name]; [rewrite Hp in Hdef; discriminate|].
      change (negb (Py.truthy (String d0 domain))
              || negb (Py.truthy (String n0 name))) with false. cbv iota.
      rewrite <- Hdef.
      destruct (guess_name (String n0 name)) eqn:En;
        [rewrite Hp in Hdef; discriminate|].
      change (negb (Py.truthy (String a s0))) with false. cbv iota.
      rewrite Hb. intros e He. now apply nodup_In.
Qed.

Lemma guess_emails_patterns_witness :
  incl ["jane.doe@foo.com"; "janedoe@foo.com"; "jdoe@foo.com"; "janed@foo.com";
        "jane_doe@foo.com"; "jane-doe@foo.com"; "jane@foo.com"]
       (guess_emails "Jane Doe" "foo.com").
Proof.
  refine (proj2 (proj2 (proj2 guess_emails_patterns "Jane Doe" "foo.com" _)) _).
  - vm_compute. lia.
  - discriminate.
Defined.

(** ** The verifier *)

Lemma split_first_none em :
  Py.contains "@" em = false -> Py.split_first "@" em = None.
Proof.
  induction em as [|c em IH]; [reflexivity|].
  rewrite contains_eq. cbn [Py.startswith Py.split_first].
  rewrite Ascii.eqb_sym. destruct (Ascii.eqb c "@"); [discriminate|].
  cbn [andb orb]. intros H. now rewrite (IH H).
Qed.

Lemma after_last_none em :
  Py.contains "@" em = false -> Py.after_last "@" em = em.
Proof.
  destruct em as [|c em]; [reflexivity|].
  rewrite contains_eq. cbn [Py.startswith Py.after_last].
  rewrite Ascii.eqb_sym. destruct (Ascii.eqb c "@"); [discriminate|].
  cbn [andb orb]. now intros ->.
Qed.

(** C2 (as amended): for an address without [@], [smtp_handshake_check]
    returns status "unknown" and note "bad_email" with no DNS or SMTP
    interaction; its result has no MX component.  In [main] the MX lookup
    runs first, on the text after the last [@] (here the whole address), and
    the handshake is called only when verification is on and that lookup
    succeeded: the record then has mx true with "unknown"/"bad_email", and
    otherwise an empty status and note. *)
Theorem verifier_bad_email (w : World) (a : Args) (em : string) :
  Py.contains "@" em = false ->
  smtp_handshake_check w em = ([], ("unknown", "bad_email"))
  /\ candidate_check w a em
     = ([EvDns em],
        if smtp_verify a && mx_exists w em
        then (true, "unknown", "bad_email")
        else (mx_exists w em, "", "")).
Proof.
  intros H.
  assert (Hs : smtp_handshake_check w em = ([], ("unknown", "bad_email"))).
  { unfold smtp_handshake_check. now rewrite (split_first_none em H). }
  split; [exact Hs|].
  unfold candidate_check. rewrite (after_last_none em H), Hs.
  destruct (smtp_verify a); [|reflexivity].
  now destruct (mx_exists w em).
Qed.

Lemma verifier_bad_email_witness :
  smtp_handshake_check sample_world "janedoe.art" = ([], ("unknown", "bad_email"))
  /\ candidate_check sample_world sample_args "janedoe.art"
     = ([EvDns "janedoe.art"], (true, "unknown", "bad_email")).
Proof.
  exact (verifier_bad_email sample_world sample_args "janedoe.art" eq_refl).
Defined.

(** C2, as stated, fails: in [main] the address "nomail", which has no [@],
    causes a DNS query and gets an empty status and note; and the address
    "janedoe.art" gets "bad_email" together with mx true. *)
Lemma verifier_bad_email_counterexample :
  Py.contains "@" "nomail" = false
  /\ candidate_check sample_world sample_args "nomail"
     = ([EvDns "nomail"], (false, "", ""))
  /\ Py.contains "@" "janedoe.art" = false
  /\ candidate_check sample_world sample_args "janedoe.art"
     = ([EvDns "janedoe.art"], (true, "unknown", "bad_email")).
Proof. repeat split. Qed.

(** ** The fetcher *)

Lemma py_int_truthy cl size : py_int cl = Some size -> Py.truthy cl = true.
Proof. destruct cl; [discriminate | reflexivity]. Qed.

(** C8 (as amended): when the size probe reports a non-zero content length
    above [max_bytes], the fetcher returns status "skip_large:<size>" with
    empty email and link sets after the probe alone, without the GET; for a
    [max_bytes] that is not negative every reported length above it is
    non-zero. *)
Theorem fetch_skips_large (w : World) (url cl : string) (max_bytes size : Z) :
  http_head w url = HeadOk (Some cl) ->
  py_int cl = Some size ->
  (max_bytes < size)%Z ->
  (size <> 0 \/ 0 <= max_bytes)%Z ->
  extract_emails_and_links_from_url w url max_bytes
  = ([EvHead url], ([], [], "skip_large:" ++ py_str size)).
Proof.
  intros Hh Hi Hlt Hnz. unfold extract_emails_and_links_from_url.
  rewrite Hh, (py_int_truthy cl size Hi), Hi.
  assert (E1 : (size =? 0)%Z = false) by (apply Z.eqb_neq; lia).
  assert (E2 : (max_bytes <? size)%Z = true) by (apply Z.ltb_lt; lia).
  now rewrite E1, E2.
Qed.

Lemma fetch_skips_large_witness :
  extract_emails_and_links_from_url sample_world "https://big.test/video" 1000000
  = ([EvHead "https://big.test/video"], ([], [], "skip_large:2000000")).
Proof.
  apply (fetch_skips_large sample_world "https://big.test/video" "2000000"
           1000000 2000000); try reflexivity.
  left. discriminate.
Defined.

(** C8, as stated, fails: with [max_bytes = -1] a reported length of 0
    exceeds the cap, and the fetcher goes on to the GET and returns "ok". *)
Lemma fetch_skips_large_counterexample :
  http_head sample_world "https://zero.test/" = HeadOk (Some "0")
  /\ py_int "0" = Some 0%Z
  /\ (-1 <? 0)%Z = true
  /\ extract_emails_and_links_from_url sample_world "https://zero.test/" (-1)
     = ([EvHead "https://zero.test/"; EvGet "https://zero.test/"],
        ([], [], "ok")).
Proof. repeat split. Qed.

(** ** The per-profile loop: guesses are gated *)

Lemma candidate_row_fields w a u full ext em src :
  username (candidate_row w a u full ext em src) = u
  /\ external_url (candidate_row w a u full ext em src) = ext
  /\ email (candidate_row w a u full ext em src) = em
  /\ source (candidate_row w a u full ext em src) = src.
Proof.
  unfold candidate_row.
  destruct (snd (candidate_check w a em)) as [[m s] n]. now simpl.
Qed.

Lemma in_insert_sorted x y l : In y (insert_sorted x l) -> y = x \/ In y l.
Proof.
  induction l as [|z l IH]; simpl.
  - intuition congruence.
  - destruct (String.leb x z); simpl; intuition congruence.
Qed.

Lemma in_py_sorted y l : In y (py_sorted l) -> In y l.
Proof.
  induction l as [|x l IH]; simpl; [tauto|].
  intros H. apply in_insert_sorted in H. intuition congruence.
Qed.

Lemma guess_emails_suffix full dom em :
  In em (guess_emails full dom) -> exists b, em = b ++ "@" ++ dom.
Proof.
  unfold guess_emails.
  destruct (negb (Py.truthy dom) || negb (Py.truthy full)); [intros []|].
  destruct (negb (Py.truthy (guess_name full))); [intros []|].
  intros H. apply nodup_In, in_map_iff in H as (b & Hb & _). now exists b.
Qed.

Lemma guess_rows_In w a u full personal r :
  In r (guess_rows w a u full personal) ->
  exists dom em,
    In dom personal /\ mx_exists w dom = true
    /\ In em (guess_emails full dom)
    /\ r = candidate_row w a u full ("https://" ++ dom) em "guess_personal".
Proof.
  unfold guess_rows. intros H. apply in_flat_map in H as (dom & Hd & Hr).
  destruct (mx_exists w dom) eqn:Hmx; simpl in Hr; [|contradiction].
  apply in_map_iff in Hr as (em & <- & Hem).
  exists dom, em. auto using in_py_sorted.
Qed.

Lemma in_set_add x y s : In y (set_add x s) -> y = x \/ In y s.
Proof.
  unfold set_add. destruct (in_set x s); [tauto|].
  rewrite in_app_iff. simpl. intuition congruence.
Qed.

Lemma deep_crawl_spec w a u full items : forall n personal rows personal',
  deep_crawl w a u full items n personal = (rows, personal') ->
  (forall r, In r rows ->
     exists link em, r = candidate_row w a u full link em "site_deep")
  /\ forall dom, In dom personal' ->
       In dom personal
       \/ exists link em,
            In (dom, link) items
            /\ In (candidate_row w a u full link em "site_deep") rows.
Proof.
  induction items as [|[d l] items IH]; intros n personal rows personal' H;
    simpl in H.
  - inversion H; subst. split; [intros r []|]. tauto.
  - destruct (max_deep_links a <=? n)%Z.
    { inversion H; subst. split; [intros r []|]. tauto. }
    destruct (snd (extract_emails_and_links_from_url w l (max_site_bytes a)))
      as [[ems lks] note].
    destruct (deep_crawl w a u full items (n + 1)
                (match ems with [] => personal | _ => set_add d personal end))
      as [rows1 p1] eqn:E.
    inversion H; subst rows personal'. clear H.
    destruct (IH _ _ _ _ E) as [IHr IHp]. split.
    + intros r Hr. apply in_app_iff in Hr as [Hr|Hr]; [|now apply IHr].
      apply in_map_iff in Hr as (em & <- & _). now exists l, em.
    + intros dom Hd. apply IHp in Hd as [Hd|(link & em & Hi & Hr)].
      * destruct ems as [|e0 ems]; [now left|].
        apply in_set_add in Hd as [->|Hd]; [|now left].
        right. exists l, e0. split; [now left|].
        apply in_app_iff. left. now left.
      * right. exists link, em. split; [now right|].
        apply in_app_iff. now right.
Qed.

Lemma candidate_domains_In w links d link :
  In (d, link) (candidate_domains w links) -> domain_from_url w link = Some d.
Proof.
  unfold candidate_domains.
  assert (G : forall ls cd,
             (forall k v, In (k, v) cd -> domain_from_url w v = Some k) ->
             forall k v, In (k, v) (fold_left (candidate_step w) ls cd) ->
                         domain_from_url w v = Some k).
  { induction ls as [|x ls IH]; intros cd Hcd; simpl; [exact Hcd|].
    apply IH. intros k v Hin. unfold candidate_step in Hin.
    destruct (domain_from_url w x) as [dx|] eqn:E; [|now apply Hcd].
    destruct (negb (Py.truthy dx) || is_aggregator_or_social dx);
      [now apply Hcd|].
    destruct (Py.mem dx cd); [now apply Hcd|].
    apply in_set_inv in Hin as [Heq|Hin]; [|now apply Hcd].
    inversion Heq; subst. exact E. }
  apply G. intros k v [].
Qed.

(** C9: a record of tier guess_personal in the rows of a run has as its
    domain one that the deep crawl of the same profile fetched with at least
    one address found (a site_deep record for the same handle stands before
    it in the rows, taken from a link of that domain) and for which the MX
    lookup succeeded; so no guess exists for a domain that gave no address. *)
Theorem guess_rows_gated (w : World) (a : Args) (users : list string) (r : Row) :
  In r (main w a users) ->
  source r = "guess_personal" ->
  exists dom link found before between after,
    main w a users = app before (found :: app between (r :: after))
    /\ external_url r = "https://" ++ dom
    /\ (exists b, email r = b ++ "@" ++ dom)
    /\ mx_exists w dom = true
    /\ source found = "site_deep"
    /\ username found = username r
    /\ external_url found = link
    /\ domain_from_url w link = Some dom.
Proof.
  unfold main. intros Hin Hsrc.
  apply in_flat_map in Hin as (u & Hu & Hr).
  apply in_split in Hu as (us1 & us2 & ->).
  rewrite flat_map_app. simpl.
  unfold process_profile in *.
  destruct (profile_from_username w u) as [exn|p].
  { destruct Hr as [<-|[]]. discriminate. }
  set (full := p_full_name p) in *. set (ext := p_external_url p) in *.
  set (bio := map _ (extract_emails_from_text (p_biography p))) in *.
  assert (Hbio : In r bio -> False).
  { intros H. apply in_map_iff in H as (em & <- & _).
    destruct (candidate_row_fields w a u full ext em "bio") as (_ & _ & _ & S).
    rewrite S in Hsrc. discriminate. }
  destruct (negb (Py.truthy ext)); [now apply Hbio in Hr|].
  destruct (snd (extract_emails_and_links_from_url w ext (max_site_bytes a)))
    as [[site_emails links] note].
  set (site := map _ site_emails) in *.
  destruct (deep_crawl w a u full (candidate_domains w links) 0 [])
    as [deep personal] eqn:E.
  destruct (deep_crawl_spec _ _ _ _ _ _ _ _ _ E) as [Hdeep Hpers].
  apply in_app_iff in Hr as [Hr|Hr]; [now apply Hbio in Hr|].
  apply in_app_iff in Hr as [Hr|Hr].
  { apply in_map_iff in Hr as (em & <- & _).
    destruct (candidate_row_fields w a u full ext em "site") as (_ & _ & _ & S).
    rewrite S in Hsrc. discriminate. }
  apply in_app_iff in Hr as [Hr|Hr].
  { apply Hdeep in Hr as (link & em & ->).
    destruct (candidate_row_fields w a u full link em "site_deep")
      as (_ & _ & _ & S).
    rewrite S in Hsrc. discriminate. }
  pose proof Hr as Hg.
  apply guess_rows_In in Hg as (dom & em & Hd & Hmx & Hem & Hreq).
  apply Hpers in Hd as [[]|(link & em' & Hitem & Hfound)].
  apply candidate_domains_In in Hitem.
  apply in_split in Hfound as (d1 & d2 & Hdeq).
  apply in_split in Hr as (g1 & g2 & Hgeq).
  destruct (candidate_row_fields w a u full ("https://" ++ dom) em
              "guess_personal") as (Ru & Re & Rm & _).
  destruct (candidate_row_fields w a u full link em' "site_deep")
    as (Fu & Fe & _ & Fs).
  exists dom, link, (candidate_row w a u full link em' "site_deep"),
    (app (flat_map (process_profile w a) us1) (app bio (app site d1))),
    (app d2 g1), (app g2 (flat_map (process_profile w a) us2)).
  rewrite Hgeq, Hdeq, Hreq, Ru, Re, Rm, Fu.
  repeat split; auto.
  - unfold process_profile at 2. fold full ext.
    repeat (rewrite <- ?app_assoc; simpl). reflexivity.
  - apply guess_emails_suffix in Hem as [b ->]. now exists b.
Qed.

Lemma guess_rows_gated_witness :
  exists dom link found before between after,
    main sample_world sample_args ["jane"; "ghost"]
    = app before (found :: app between (sample_guess_row :: after))
    /\ external_url sample_guess_row = "https://" ++ dom
    /\ (exists b, email sample_guess_row = b ++ "@" ++ dom)
    /\ mx_exists sample_world dom = true
    /\ source found = "site_deep"
    /\ username found = username sample_guess_row
    /\ external_url found = link
    /\ domain_from_url sample_world link = Some dom.
Proof.
  apply (guess_rows_gated sample_world sample_args ["jane"; "ghost"]
           sample_guess_row).
  - vm_compute. repeat (first [left; reflexivity | right]).
  - reflexivity.
Defined.

(** ** The matcher *)

Lemma append_nil_r s : s ++ "" = s.
Proof. induction s as [|c s IH]; simpl; [reflexivity | now rewrite IH]. Qed.

Lemma append_assoc a b c : (a ++ b) ++ c = a ++ (b ++ c).
Proof. induction a as [|x a IH]; simpl; [reflexivity | now rewrite IH]. Qed.

Lemma length_append a b : length (a ++ b) = length a + length b.
Proof. induction a as [|x a IH]; simpl; [reflexivity | now rewrite IH]. Qed.

Lemma all_chars_app p a b :
  Py.all_chars p (a ++ b) = Py.all_chars p a && Py.all_chars p b.
Proof.
  induction a as [|x a IH]; simpl; [reflexivity|].
  now rewrite IH, andb_assoc.
Qed.

Lemma all_chars_weaken (p q : ascii -> bool) s :
  (forall c, p c = true -> q c = true) ->
  Py.all_chars p s = true -> Py.all_chars q s = true.
Proof.
  intros Hpq. induction s as [|c s IH]; simpl; [reflexivity|].
  intros H. apply andb_true_iff in H as [H1 H2].
  now rewrite (Hpq c H1), IH.
Qed.

Lemma matched_app m rest : Re.matched (m ++ rest) rest = m.
Proof.
  unfold Re.matched. rewrite length_append.
  replace (length m + length rest - length rest) with (length m) by lia.
  induction m as [|c m IH]; simpl.
  - now destruct rest.
  - now rewrite IH.
Qed.

Lemma match_star_eq p r s :
  Re.match_seq (Re.Star p :: r) s
  = match s with
    | String c s' =>
        if p c then
          match Re.match_seq (Re.Star p :: r) s' with
          | Some rest => Some rest
          | None => Re.match_seq r s
          end
        else Re.match_seq r s
    | EmptyString => Re.match_seq r s
    end.
Proof. now destruct s. Qed.

Lemma match_one_eq p r s :
  Re.match_seq (Re.One p :: r) s
  = match s with
    | String c s' => if p c then Re.match_seq r s' else None
    | EmptyString => None
    end.
Proof. reflexivity. Qed.

(** What the matcher finds is a match. *)
Lemma match_seq_sound r : forall s rest,
  Re.match_seq r s = Some rest -> exists m, s = m ++ rest /\ Re.Matches r m.
Proof.
  induction r as [|[p|p] r IH]; intros s rest H.
  - simpl in H. inversion H; subst. exists "". split; [reflexivity | constructor].
  - rewrite match_one_eq in H. destruct s as [|c s]; [discriminate|].
    destruct (p c) eqn:Hp; [|discriminate].
    destruct (IH _ _ H) as (m & -> & Hm).
    exists (String c m). split; [reflexivity | now constructor].
  - assert (G : exists run m0,
               s = run ++ m0 ++ rest /\ Py.all_chars p run = true
               /\ Re.Matches r m0).
    { revert rest H. induction s as [|c s IHs]; intros rest H;
        rewrite match_star_eq in H.
      - destruct (IH _ _ H) as (m & E & Hm). now exists "", m.
      - assert (Hfall : Re.match_seq r (String c s) = Some rest ->
                        exists run m0, String c s = run ++ m0 ++ rest
                          /\ Py.all_chars p run = true /\ Re.Matches r m0).
        { intros H'. destruct (IH _ _ H') as (m & E & Hm). now exists "", m. }
        destruct (p c) eqn:Hp; [|now apply Hfall].
        destruct (Re.match_seq (Re.Star p :: r) s) as [x|] eqn:Es;
          [|now apply Hfall].
        inversion H; subst x.
        destruct (IHs _ eq_refl) as (run & m0 & -> & Hrun & Hm).
        exists (String c run), m0. simpl. now rewrite Hp, Hrun. }
    destruct G as (run & m0 & -> & Hrun & Hm).
    exists (run ++ m0). split; [now rewrite append_assoc | now constructor].
Qed.

(** A repetition followed by a text it cannot enter takes its whole run,
    provided the rest of the sequence then succeeds. *)
Lemma match_star_run p r run tail x :
  Py.all_chars p run = true ->
  match tail with String c _ => p c = false | EmptyString => True end ->
  Re.match_seq r tail = Some x ->
  Re.match_seq (Re.Star p :: r) (run ++ tail) = Some x.
Proof.
  intros Hrun Htail Hr. induction run as [|c run IH].
  - simpl append. rewrite match_star_eq. destruct tail as [|c t]; [assumption|].
    now rewrite Htail.
  - simpl in Hrun. apply andb_true_iff in Hrun as [Hc Hrun].
    simpl append. rewrite match_star_eq, Hc. now rewrite (IH Hrun).
Qed.

Lemma finditer_from_In alts s : forall skip e,
  In e (Re.finditer_from alts skip s) ->
  exists s' rest, Re.match_alt alts s' = Some rest /\ e = Re.matched s' rest.
Proof.
  induction s as [|c s IH]; intros skip e H; simpl in H.
  - destruct skip; [|contradiction].
    destruct (Re.match_alt alts "") as [rest|] eqn:E; [|contradiction].
    destruct H as [<-|[]]. exists "", rest. split; [assumption|].
    now destruct rest.
  - destruct skip as [|k]; [|now apply IH in H].
    destruct (Re.match_alt alts (String c s)) as [rest|] eqn:E;
      [|now apply IH in H].
    destruct H as [<-|H]; [|now apply IH in H].
    now exists (String c s), rest.
Qed.

Lemma finditer_from_skip alts m s :
  Re.finditer_from alts (length m) (m ++ s) = Re.finditer_from alts 0 s.
Proof. induction m as [|c m IH]; simpl; [reflexivity | apply IH]. Qed.

(** A successful match at the head of the text is the first item. *)
Lemma finditer_match alts c m s :
  Re.match_alt alts (String c m ++ s) = Some s ->
  Re.finditer alts (String c m ++ s) = String c m :: Re.finditer alts s.
Proof.
  intros H. unfold Re.finditer.
  change (Re.finditer_from alts 0 (String c m ++ s))
    with (match Re.match_alt alts (String c m ++ s) with
          | Some rest =>
              Re.matched (String c m ++ s) rest
              :: Re.finditer_from alts
                   (length (String c m ++ s) - length rest - 1) (m ++ s)
          | None => Re.finditer_from alts 0 (m ++ s)
          end).
  rewrite H, matched_app, length_append. f_equal.
  replace (length (String c m) + length s - length s - 1) with (length m)
    by (change (length (String c m)) with (S (length m)); lia).
  apply finditer_from_skip.
Qed.

Lemma finditer_no_match alts c s :
  Re.match_alt alts (String c s) = None ->
  Re.finditer alts (String c s) = Re.finditer alts s.
Proof. intros H. unfold Re.finditer. simpl. now rewrite H. Qed.

Lemma sub_no_match alts repl c s :
  Re.match_alt alts (String c s) = None ->
  Re.sub alts repl (String c s) = String c (Re.sub alts repl s).
Proof. intros H. unfold Re.sub. simpl. now rewrite H. Qed.

(** ** Matches of [EMAIL_REGEX] *)

Ltac by_cases_on_char c :=
  destruct c as [[] [] [] [] [] [] [] []]; vm_compute;
  intros; first [reflexivity | discriminate].

Lemma local_char_plain c : local_char c = true -> plain c = true.
Proof. by_cases_on_char c. Qed.

Lemma label_char_local c : label_char c = true -> local_char c = true.
Proof. by_cases_on_char c. Qed.

Lemma tail_char_local c : tail_char c = true -> local_char c = true.
Proof. by_cases_on_char c. Qed.

Lemma plain_no_bracket c : plain c = true -> no_bracket c = true.
Proof. by_cases_on_char c. Qed.

Lemma lit_eq a c : Re.lit a c = true -> c = a.
Proof. apply Ascii.eqb_eq. Qed.

Lemma match_email_shaped s rest :
  Re.match_alt EMAIL_REGEX s = Some rest ->
  exists e, s = e ++ rest /\ email_shaped e.
Proof.
  unfold EMAIL_REGEX. cbn [Re.match_alt].
  destruct (Re.match_seq _ s) as [x|] eqn:E; [|discriminate].
  intros H. inversion H; subst x. clear H.
  apply match_seq_sound in E as (m & -> & Hm). exists m. split; [reflexivity|].
  unfold Re.plus in Hm. cbn [app] in Hm.
  inversion Hm as [|p1 r1 l1 m1 Hl1 Hm1|]; subst; clear Hm.
  inversion Hm1 as [| |p2 r2 L m2 HL Hm2]; subst; clear Hm1.
  inversion Hm2 as [|p3 r3 c3 m3 Hc3 Hm3|]; subst; clear Hm2.
  inversion Hm3 as [|p4 r4 d1 m4 Hd1 Hm4|]; subst; clear Hm3.
  inversion Hm4 as [| |p5 r5 D m5 HD Hm5]; subst; clear Hm4.
  inversion Hm5 as [|p6 r6 c6 m6 Hc6 Hm6|]; subst; clear Hm5.
  inversion Hm6 as [|p7 r7 t1 m7 Ht1 Hm7|]; subst; clear Hm6.
  inversion Hm7 as [| |p8 r8 T m8 HT Hm8]; subst; clear Hm7.
  inversion Hm8; subst; clear Hm8.
  apply lit_eq in Hc3, Hc6. subst c3 c6.
  exists l1, L, d1, D, t1, T. rewrite append_nil_r. now repeat split.
Qed.

Lemma email_shaped_app e tail :
  email_shaped e ->
  exists l1 L d1 D t1 T,
    e ++ tail
    = String l1 (L ++ String "@" (String d1 (D ++ String "."
                                   (String t1 (T ++ tail)))))
    /\ local_char l1 = true /\ Py.all_chars local_char L = true
    /\ label_char d1 = true /\ Py.all_chars label_char D = true
    /\ tail_char t1 = true /\ Py.all_chars tail_char T = true.
Proof.
  intros (l1 & L & d1 & D & t1 & T & -> & H).
  exists l1, L, d1, D, t1, T. split; [|exact H].
  simpl. rewrite append_assoc. simpl. now rewrite append_assoc.
Qed.

(** An address followed by nothing, or by a character its last class does
    not take, is matched whole. *)
Lemma match_email_exact e tail :
  email_shaped e ->
  match tail with String c _ => tail_char c = false | EmptyString => True end ->
  Re.match_alt EMAIL_REGEX (e ++ tail) = Some tail.
Proof.
  intros He Htail.
  destruct (email_shaped_app e tail He)
    as (l1 & L & d1 & D & t1 & T & -> & Hl1 & HL & Hd1 & HD & Ht1 & HT).
  unfold EMAIL_REGEX, Re.plus. cbn [Re.match_alt app].
  rewrite match_one_eq, Hl1.
  rewrite (match_star_run local_char _ L _ tail HL); [reflexivity | reflexivity |].
  rewrite match_one_eq. change (Re.lit "@" "@") with true. cbv iota.
  rewrite match_one_eq, Hd1.
  apply (match_star_run label_char _ D _ tail HD); [reflexivity|].
  rewrite match_one_eq. change (Re.lit "." ".") with true. cbv iota.
  rewrite match_one_eq, Ht1.
  now apply (match_star_run tail_char _ T _ tail HT).
Qed.

Lemma email_shaped_plain e : email_shaped e -> Py.all_chars plain e = true.
Proof.
  intros (l1 & L & d1 & D & t1 & T & -> & Hl1 & HL & Hd1 & HD & Ht1 & HT).
  cbn [Py.all_chars]. rewrite !all_chars_app. cbn [Py.all_chars].
  rewrite !all_chars_app. cbn [Py.all_chars].
  rewrite (local_char_plain l1 Hl1).
  rewrite (all_chars_weaken local_char plain L local_char_plain HL).
  rewrite (local_char_plain d1 (label_char_local d1 Hd1)).
  rewrite (all_chars_weaken label_char plain D
             (fun c H => local_char_plain c (label_char_local c H)) HD).
  rewrite (local_char_plain t1 (tail_char_local t1 Ht1)).
  rewrite (all_chars_weaken tail_char plain T
             (fun c H => local_char_plain c (tail_char_local c H)) HT).
  reflexivity.
Qed.

Lemma email_shaped_four e :
  email_shaped e ->
  exists c1 c2 c3 c4 e', e = String c1 (String c2 (String c3 (String c4 e'))).
Proof.
  intros (l1 & L & d1 & D & t1 & T & -> & _).
  destruct L as [|x L]; simpl.
  - destruct D as [|y D]; simpl; eauto 6.
  - destruct L as [|x' L]; simpl; [eauto 6|].
    destruct L as [|x'' L]; simpl; eauto 6.
Qed.

Lemma finditer_shaped s e :
  In e (Re.finditer EMAIL_REGEX s) -> email_shaped e.
Proof.
  intros H. apply finditer_from_In in H as (s' & rest & Hm & ->).
  apply match_email_shaped in Hm as (m & -> & Hs). now rewrite matched_app.
Qed.

(** ** [OBFUSCATION] finds nothing in a list of addresses *)

Lemma plain_parts c :
  plain c = true ->
  Re.ws c = false /\ Re.lit "[" c = false /\ Re.lit "(" c = false.
Proof.
  unfold plain. rewrite !andb_true_iff, !negb_true_iff. tauto.
Qed.

Ltac obfuscation_steps :=
  repeat (cbn [Re.match_alt Re.match_seq];
          match goal with
          | H : ?b = _ |- context [if ?b then _ else _] => rewrite H
          | |- context [if ?b then _ else _] => destruct b eqn:?
          end);
  cbn [Re.match_alt Re.match_seq]; try reflexivity.

Lemma obfuscation_plain_head c q :
  plain c = true -> Re.match_alt OBFUSCATION (String c q) = None.
Proof.
  intros H. destruct (plain_parts c H) as (Hw & Hb & Hp).
  unfold OBFUSCATION, Re.plus. cbn [app].
  obfuscation_steps.
Qed.

Lemma obfuscation_space_head c1 c2 c3 c4 q :
  plain c1 = true -> plain c2 = true -> plain c3 = true -> plain c4 = true ->
  Re.match_alt OBFUSCATION
    (String " " (String c1 (String c2 (String c3 (String c4 q))))) = None.
Proof.
  intros H1 H2 H3 H4.
  destruct (plain_parts c1 H1) as (Hw1 & Hb1 & Hp1).
  destruct (plain_parts c2 H2) as (Hw2 & _ & _).
  destruct (plain_parts c3 H3) as (Hw3 & _ & _).
  destruct (plain_parts c4 H4) as (Hw4 & _ & _).
  assert (S1 : Re.ws " " = true) by reflexivity.
  assert (S2 : Re.lit "[" " " = false) by reflexivity.
  assert (S3 : Re.lit "(" " " = false) by reflexivity.
  unfold OBFUSCATION, Re.plus. cbn [app].
  obfuscation_steps.
Qed.

Lemma obfuscation_empty : Re.match_alt OBFUSCATION "" = None.
Proof. reflexivity. Qed.

Lemma sub_plain_prefix repl m q :
  Py.all_chars plain m = true ->
  Re.sub OBFUSCATION repl (m ++ q) = m ++ Re.sub OBFUSCATION repl q.
Proof.
  induction m as [|c m IH]; simpl; [reflexivity|].
  intros H. apply andb_true_iff in H as [Hc Hm].
  rewrite sub_no_match by now apply obfuscation_plain_head.
  now rewrite IH.
Qed.

Lemma email_shaped_address_like e : email_shaped e -> address_like e.
Proof. split; [now apply email_shaped_plain | now apply email_shaped_four]. Qed.

Lemma join_cons e l : join_spaces (e :: l) = e ++ join_rest l.
Proof.
  unfold join_spaces, join_rest. destruct l; simpl; [now rewrite append_nil_r|].
  reflexivity.
Qed.

Lemma sub_join repl l :
  Forall address_like l ->
  Re.sub OBFUSCATION repl (join_spaces l) = join_spaces l.
Proof.
  induction 1 as [|e l He Hl IH]; [reflexivity|].
  rewrite join_cons, sub_plain_prefix by apply He. f_equal.
  destruct Hl as [|e2 l' He2 Hl']; [reflexivity|].
  unfold join_rest. rewrite sub_no_match; [now rewrite IH|].
  rewrite join_cons.
  destruct He2 as [Hp (c1 & c2 & c3 & c4 & e' & ->)].
  simpl in Hp. repeat (apply andb_true_iff in Hp as [? Hp]).
  now apply obfuscation_space_head.
Qed.

Lemma startswith_bracket a b old s :
  no_bracket b = false -> Py.all_chars no_bracket s = true ->
  Py.startswith (String a (String b old)) s = false.
Proof.
  intros Hb Hs. destruct s as [|c1 [|c2 s]]; simpl; auto using andb_false_r.
  simpl in Hs. apply andb_true_iff in Hs as [_ Hs].
  apply andb_true_iff in Hs as [H2 _].
  destruct (Ascii.eqb b c2) eqn:E; [|now rewrite andb_false_r].
  apply Ascii.eqb_eq in E. congruence.
Qed.

Lemma replace_no_bracket a b old new s :
  no_bracket b = false -> Py.all_chars no_bracket s = true ->
  replace (String a (String b old)) new s = s.
Proof.
  intros Hb. unfold replace. induction s as [|c s IH]; intros Hs; [reflexivity|].
  cbn [replace_from]. rewrite (startswith_bracket a b old _ Hb Hs).
  simpl in Hs. apply andb_true_iff in Hs as [_ Hs]. now rewrite IH.
Qed.

Lemma join_no_bracket l :
  Forall address_like l -> Py.all_chars no_bracket (join_spaces l) = true.
Proof.
  induction 1 as [|e l [He _] Hl IH]; [reflexivity|].
  rewrite join_cons, all_chars_app.
  rewrite (all_chars_weaken plain no_bracket e plain_no_bracket He).
  destruct l; [reflexivity|]. unfold join_rest. cbn [Py.all_chars].
  now rewrite IH.
Qed.

Lemma clean_join l :
  Forall address_like l -> clean_obfuscated_email (join_spaces l) = join_spaces l.
Proof.
  intros H. unfold clean_obfuscated_email. rewrite (sub_join _ l H).
  pose proof (join_no_bracket l H) as Hn.
  rewrite (replace_no_bracket " " "[" "at] " "@" _ eq_refl Hn).
  rewrite (replace_no_bracket " " "(" "at) " "@" _ eq_refl Hn).
  rewrite (replace_no_bracket " " "[" "dot] " "." _ eq_refl Hn).
  apply (replace_no_bracket " " "(" "dot) " "." _ eq_refl Hn).
Qed.

Lemma finditer_join l :
  Forall email_shaped l -> Re.finditer EMAIL_REGEX (join_spaces l) = l.
Proof.
  induction 1 as [|e l He Hl IH]; [reflexivity|].
  rewrite join_cons.
  destruct (email_shaped_four e He) as (c1 & c2 & c3 & c4 & e' & Ee).
  rewrite Ee at 1. rewrite finditer_match.
  - rewrite <- Ee. f_equal. destruct Hl as [|e2 l' He2 Hl']; [reflexivity|].
    unfold join_rest. now rewrite finditer_no_match.
  - rewrite <- Ee. apply match_email_exact; [assumption|].
    now destruct l.
Qed.

(** C5: joining the addresses extracted from a text with single spaces, in
    any order, and extracting again gives the same set of addresses. *)
Theorem extract_emails_idempotent (text : string) (l : list string) :
  (forall e, In e l <-> In e (extract_emails_from_text text)) ->
  forall e,
    In e (extract_emails_from_text (join_spaces l))
    <-> In e (extract_emails_from_text text).
Proof.
  intros Hl e.
  assert (Hs : Forall email_shaped l).
  { apply Forall_forall. intros x Hx. apply Hl in Hx.
    unfold extract_emails_from_text in Hx. apply nodup_In in Hx.
    now apply finditer_shaped in Hx. }
  assert (Ha : Forall address_like l).
  { eapply Forall_impl; [|exact Hs]. apply email_shaped_address_like. }
  unfold extract_emails_from_text at 1.
  rewrite (clean_join l Ha), (finditer_join l Hs), nodup_In. apply Hl.
Qed.

Lemma extract_emails_idempotent_witness :
  In "b@y.org"
     (extract_emails_from_text (join_spaces ["b@y.org"; "A@X.io"; "a@x.io"]))
  <-> In "b@y.org" (extract_emails_from_text "A (at) X.io; b@y.org, a@x.io").
Proof.
  apply (extract_emails_idempotent "A (at) X.io; b@y.org, a@x.io"
           ["b@y.org"; "A@X.io"; "a@x.io"]).
  intros e. vm_compute. intuition congruence.
Defined.

(** * Further properties of the code *)

(** ** cleaner.py: order, optimality and idempotence of the reduction *)

Lemma remove_first_occurrences u l :
  first_occurrences (remove string_dec u l)
  = remove string_dec u (first_occurrences l).
Proof.
  induction l as [|x l IH]; [reflexivity|].
  cbn [remove first_occurrences]. destruct (string_dec u x) as [<-|Hne].
  - rewrite IH. cbn [remove]. destruct (string_dec u u); [|congruence].
    symmetry. apply notin_remove, remove_In.
  - cbn [first_occurrences remove]. destruct (string_dec u x); [congruence|].
    now rewrite IH, remove_remove_comm.
Qed.

Lemma set_fresh {V} (d : Py.dict V) k v :
  Py.get k d = None -> Py.set k v d = app d [(k, v)].
Proof.
  induction d as [|[k0 v0] d IH]; simpl; [reflexivity|].
  destruct (String.eqb k0 k); [discriminate|]. intros H. now rewrite IH.
Qed.

Lemma filter_fresh K u us :
  in_set u K = false ->
  filter (fun x => negb (in_set x (app K [u]))) us
  = remove string_dec u (filter (fun x => negb (in_set x K)) us).
Proof.
  intros E. induction us as [|x us IH]; [reflexivity|].
  cbn [filter]. unfold in_set at 1. rewrite existsb_app. cbn [existsb].
  rewrite orb_false_r. fold (in_set x K).
  destruct (string_dec u x) as [<-|Hne].
  - rewrite String.eqb_refl, orb_true_r, E. cbn [negb remove].
    destruct (string_dec u u); [exact IH | congruence].
  - assert (Hf : String.eqb x u = false) by (apply String.eqb_neq; congruence).
    rewrite Hf, orb_false_r.
    destruct (in_set x K); cbn [negb remove]; [exact IH|].
    destruct (string_dec u x); [congruence|]. now rewrite IH.
Qed.

Lemma keys_fold rows : forall d,
  Py.keys (fold_left select_step rows d)
  = app (Py.keys d)
        (first_occurrences
           (filter (fun u => negb (in_set u (Py.keys d))) (map username rows))).
Proof.
  induction rows as [|r rows IH]; intros d; simpl.
  - now rewrite app_nil_r.
  - rewrite IH. clear IH.
    assert (Hk : Py.keys (select_step d r)
                 = if in_set (username r) (Py.keys d) then Py.keys d
                   else app (Py.keys d) [username r]).
    { unfold select_step.
      destruct (in_set (username r) (Py.keys d)) eqn:E.
      - destruct (Py.get (username r) d) eqn:G.
        + destruct (_ <? _)%Z; [now rewrite keys_set, G | reflexivity].
        + apply get_none_keys in G. exfalso. apply G.
          unfold in_set in E. apply existsb_exists in E as (x & Hx & Ex).
          apply String.eqb_eq in Ex. now subst.
      - destruct (Py.get (username r) d) eqn:G.
        + assert (In (username r) (Py.keys d)).
          { destruct (in_dec string_dec (username r) (Py.keys d)) as [|Hn];
              [assumption|]. apply get_none_keys in Hn. congruence. }
          assert (in_set (username r) (Py.keys d) = true); [|congruence].
          apply existsb_exists. exists (username r).
          split; [assumption | apply String.eqb_refl].
        + now rewrite keys_set, G. }
    rewrite Hk. destruct (in_set (username r) (Py.keys d)) eqn:E; simpl.
    + reflexivity.
    + rewrite <- app_assoc. simpl. do 2 f_equal.
      rewrite <- remove_first_occurrences. f_equal.
      now apply filter_fresh.
Qed.

(** X1: the reduced rows stand in the order in which their handles first
    appear in the input. *)
Theorem select_best_order (rows : list Row) :
  map username (select_best rows) = first_occurrences (map username rows).
Proof.
  unfold select_best.
  destruct (fold_invariants rows [] keyed_nil (NoDup_nil _)) as (Hk & _ & _).
  rewrite (usernames_values _ Hk), keys_fold. simpl.
  f_equal. induction (map username rows) as [|u us IH]; simpl; congruence.
Qed.

Lemma earliest_best_step h seen cur r :
  earliest_best h seen cur ->
  earliest_best h (app seen [r]) (spec_replace h cur r).
Proof.
  unfold spec_replace. destruct (String.eqb (username r) h) eqn:E.
  - apply String.eqb_eq in E. destruct cur as [b|]; simpl.
    + intros (Hb & p & q & -> & Hp & Hq).
      destruct (priority_value (source r) <? priority_value (source b))%Z eqn:L.
      * apply Z.ltb_lt in L. split; [assumption|].
        exists (app p (b :: q)), []. repeat split; [|intros ? []].
        intros r' Hr' Hu. apply in_app_iff in Hr' as [Hr'|[<-|Hr']].
        -- specialize (Hp r' Hr' Hu). lia.
        -- assumption.
        -- specialize (Hq r' Hr' Hu). lia.
      * apply Z.ltb_ge in L. split; [assumption|].
        exists p, (app q [r]). rewrite <- app_assoc. repeat split; auto.
        intros r' Hr' Hu. apply in_app_iff in Hr' as [Hr'|[<-|[]]]; auto.
    + intros Hn. split; [assumption|]. exists seen, [].
      repeat split; [|intros ? []].
      intros r' Hr' Hu. now apply Hn in Hr'.
  - apply String.eqb_neq in E. destruct cur as [b|]; simpl.
    + intros (Hb & p & q & -> & Hp & Hq). split; [assumption|].
      exists p, (app q [r]). rewrite <- app_assoc. repeat split; auto.
      intros r' Hr' Hu. apply in_app_iff in Hr' as [Hr'|[<-|[]]]; auto.
      congruence.
    + intros Hn r' Hr'. apply in_app_iff in Hr' as [Hr'|[<-|[]]]; auto.
Qed.

Lemma earliest_best_fold h rows : forall seen cur,
  earliest_best h seen cur ->
  earliest_best h (app seen rows) (fold_left (spec_replace h) rows cur).
Proof.
  induction rows as [|r rows IH]; intros seen cur H; simpl.
  - now rewrite app_nil_r.
  - replace (app seen (r :: rows)) with (app (app seen [r]) rows)
      by now rewrite <- app_assoc.
    apply IH. now apply earliest_best_step.
Qed.

(** X2: the record kept for a handle has the least rank among the records
    of that handle and is the earliest of those with that rank: every
    earlier record of the handle ranks strictly higher in number, every
    later one at least as high; a handle with no record in the input has
    none in the output. *)
Theorem select_best_earliest_minimum (rows : list Row) (h : string) :
  match output_for h (select_best rows) with
  | None => forall r, In r rows -> username r <> h
  | Some b =>
      username b = h
      /\ exists p q,
           rows = app p (b :: q)
           /\ (forall r, In r p -> username r = h ->
                 (priority_value (source b) < priority_value (source r))%Z)
           /\ (forall r, In r q -> username r = h ->
                 (priority_value (source b) <= priority_value (source r))%Z)
  end.
Proof.
  change (earliest_best h rows (output_for h (select_best rows))).
  unfold select_best.
  destruct (fold_invariants rows [] keyed_nil (NoDup_nil _)) as (Hk & _ & _).
  rewrite (output_for_values _ h Hk), get_fold.
  apply (earliest_best_fold h rows [] None). intros r [].
Qed.

Lemma select_best_distinct l : forall d,
  NoDup (map username l) ->
  (forall r, In r l -> Py.get (username r) d = None) ->
  fold_left select_step l d = app d (map (fun r => (username r, r)) l).
Proof.
  induction l as [|r l IH]; intros d Hnd Hd; simpl.
  - now rewrite app_nil_r.
  - inversion Hnd as [|u us Hnotin Hnd']; subst.
    assert (Hs : select_step d r = app d [(username r, r)]).
    { unfold select_step. rewrite (Hd r (or_introl eq_refl)).
      apply set_fresh. now apply Hd; left. }
    rewrite Hs, IH; [now rewrite <- app_assoc | assumption |].
    intros r' Hr'. apply get_none_keys. unfold Py.keys. rewrite map_app.
    simpl. intros Hin. apply in_app_iff in Hin as [Hin|[Heq|[]]].
    + specialize (Hd r' (or_intror Hr')). apply get_none_keys in Hd.
      now apply Hd.
    + apply Hnotin. rewrite Heq. now apply in_map.
Qed.

Lemma filter_all {A} (f : A -> bool) l :
  (forall x, In x l -> f x = true) -> filter f l = l.
Proof.
  induction l as [|x l IH]; intros H; simpl; [reflexivity|].
  rewrite (H x (or_introl eq_refl)). f_equal. apply IH.
  intros y Hy. apply H. now right.
Qed.

(** X3: reducing a reduced log changes nothing: the filter keeps every
    record of it and the selection finds each handle once. *)
Theorem reduce_idempotent (rows : list Row) : reduce (reduce rows) = reduce rows.
Proof.
  assert (Hc : clean_rows (reduce rows) = reduce rows).
  { unfold clean_rows at 1. apply filter_all. intros r Hr.
    unfold reduce in Hr. apply select_best_sub in Hr.
    unfold clean_rows in Hr. now apply filter_In in Hr. }
  unfold reduce at 1. rewrite Hc. unfold select_best at 1.
  assert (Hnd : NoDup (map username (reduce rows))).
  { unfold reduce, select_best.
    destruct (fold_invariants (clean_rows rows) [] keyed_nil (NoDup_nil _))
      as (Hk & Hn & _).
    now rewrite (usernames_values _ Hk). }
  rewrite (select_best_distinct _ [] Hnd (fun _ _ => eq_refl)).
  simpl. unfold Py.values. rewrite map_map. simpl. apply map_id.
Qed.

(** ** scraper.py: what an extracted address looks like *)

Lemma local_char_not_at c : local_char c = true -> negb (Ascii.eqb c "@") = true.
Proof. by_cases_on_char c. Qed.

Lemma local_char_not_space c : local_char c = true -> negb (Py.isspace c) = true.
Proof. by_cases_on_char c. Qed.

Lemma all_chars_no_contains p c s :
  p c = false -> Py.all_chars p s = true -> Py.contains (String c "") s = false.
Proof.
  intros Hp Hs. destruct (Py.contains (String c "") s) eqn:E; [|reflexivity].
  now rewrite (contains_char_not_all c p s Hp E) in Hs.
Qed.

Lemma contains_char_here c s : Py.contains (String c "") (String c s) = true.
Proof. rewrite contains_eq. cbn [Py.startswith]. now rewrite Ascii.eqb_refl. Qed.

Lemma split_first_app sep pre dom :
  Py.all_chars (fun c => negb (Ascii.eqb c sep)) pre = true ->
  Py.split_first sep (pre ++ String sep dom) = Some (pre, dom).
Proof.
  induction pre as [|c pre IH]; simpl.
  - now rewrite Ascii.eqb_refl.
  - intros H. apply andb_true_iff in H as [Hc Hp].
    apply negb_true_iff in Hc. now rewrite Hc, IH.
Qed.

Lemma after_last_app sep pre dom :
  Py.contains (String sep "") dom = false ->
  Py.after_last sep (pre ++ String sep dom) = dom.
Proof.
  intros Hd. induction pre as [|c pre IH].
  - simpl append. cbn [Py.after_last]. now rewrite Ascii.eqb_refl, Hd.
  - simpl append. cbn [Py.after_last].
    rewrite (contains_app_r (String sep "") pre (String sep dom)
               (contains_char_here sep dom)), IH.
    now destruct (Ascii.eqb c sep).
Qed.

Lemma email_shaped_parts e :
  email_shaped e ->
  exists loc dom,
    e = loc ++ String "@" dom
    /\ loc <> "" /\ dom <> ""
    /\ Py.all_chars local_char loc = true
    /\ Py.all_chars local_char dom = true
    /\ Py.contains "." dom = true.
Proof.
  intros (l1 & L & d1 & D & t1 & T & -> & Hl1 & HL & Hd1 & HD & Ht1 & HT).
  exists (String l1 L), (String d1 (D ++ String "." (String t1 T))).
  repeat split; try discriminate.
  - simpl. now rewrite Hl1.
  - cbn [Py.all_chars]. rewrite all_chars_app. cbn [Py.all_chars].
    rewrite (label_char_local d1 Hd1), (tail_char_local t1 Ht1).
    rewrite (all_chars_weaken label_char local_char D label_char_local HD).
    now rewrite (all_chars_weaken tail_char local_char T tail_char_local HT).
  - change (String d1 (D ++ String "." (String t1 T)))
      with (String d1 D ++ String "." (String t1 T)).
    apply contains_app_r, contains_char_here.
Qed.

(** X4: the addresses extracted from a text are pairwise distinct, and each
    is a non-empty local part, one [@] and a domain that holds a dot, all
    written with letters, digits and [_ . + -] only (so without white
    space). *)
Theorem extract_emails_well_formed (text : string) :
  NoDup (extract_emails_from_text text)
  /\ forall e, In e (extract_emails_from_text text) ->
       exists loc dom,
         e = loc ++ String "@" dom
         /\ loc <> "" /\ dom <> ""
         /\ Py.all_chars local_char loc = true
         /\ Py.all_chars local_char dom = true
         /\ Py.contains "." dom = true
         /\ Py.contains "@" loc = false /\ Py.contains "@" dom = false
         /\ Py.all_chars (fun c => negb (Py.isspace c)) e = true.
Proof.
  unfold extract_emails_from_text. split; [apply NoDup_nodup|].
  intros e He. apply nodup_In, finditer_shaped, email_shaped_parts in He.
  destruct He as (loc & dom & -> & Hl & Hd & Al & Ad & Hdot).
  exists loc, dom. repeat split; auto.
  - now apply (all_chars_no_contains local_char).
  - now apply (all_chars_no_contains local_char).
  - rewrite all_chars_app. cbn [Py.all_chars].
    rewrite (all_chars_weaken local_char _ loc local_char_not_space Al).
    now rewrite (all_chars_weaken local_char _ dom local_char_not_space Ad).
Qed.

(** X5: for an extracted address the two ways the program takes its domain
    agree: the text after the last [@], which [main] gives to the MX lookup,
    is the text after the first [@], which [smtp_handshake_check]
    resolves. *)
Theorem extracted_domain_agrees (text e : string) :
  In e (extract_emails_from_text text) ->
  exists loc,
    Py.split_first "@" e = Some (loc, Py.after_last "@" e)
    /\ e = loc ++ String "@" (Py.after_last "@" e).
Proof.
  unfold extract_emails_from_text. intros He.
  apply nodup_In, finditer_shaped, email_shaped_parts in He.
  destruct He as (loc & dom & -> & _ & _ & Al & Ad & _).
  exists loc.
  rewrite (after_last_app "@" loc dom
             (all_chars_no_contains local_char "@" dom eq_refl Ad)).
  split; [|reflexivity].
  apply split_first_app.
  exact (all_chars_weaken local_char _ loc local_char_not_at Al).
Qed.

Lemma extracted_domain_agrees_witness :
  exists loc,
    Py.split_first "@" "john@example.org"
    = Some (loc, Py.after_last "@" "john@example.org")
    /\ "john@example.org" = loc ++ String "@" (Py.after_last "@" "john@example.org").
Proof.
  apply (extracted_domain_agrees "john at example dot org" "john@example.org").
  vm_compute. now left.
Defined.

(** ** scraper.py: the guesses *)

Lemma guess_bases_length parts : List.length (guess_bases parts) <= 7.
Proof.
  unfold guess_bases. destruct parts as [|f rest]; simpl; [lia|].
  destruct (Py.truthy _); simpl; lia.
Qed.

Lemma keep_letters_spaces_chars s :
  Py.all_chars (fun c => Re.alpha c || Py.isspace c) (keep_letters_spaces s)
  = true.
Proof.
  induction s as [|c s IH]; simpl; [reflexivity|].
  destruct (Re.alpha c || Py.isspace c) eqn:E; simpl; [now rewrite E|exact IH].
Qed.

Lemma lstrip_chars p s :
  Py.all_chars p s = true -> Py.all_chars p (Py.lstrip s) = true.
Proof.
  induction s as [|c s IH]; simpl; [reflexivity|].
  intros H. destruct (Py.isspace c); [|exact H].
  apply andb_true_iff in H as [_ H]. now apply IH.
Qed.

Lemma rstrip_chars p s :
  Py.all_chars p s = true -> Py.all_chars p (Py.rstrip s) = true.
Proof.
  induction s as [|c s IH]; simpl; [reflexivity|].
  intros H. apply andb_true_iff in H as [Hc H]. specialize (IH H).
  destruct (Py.rstrip s).
  - destruct (Py.isspace c); simpl; [reflexivity | now rewrite Hc].
  - cbn [Py.all_chars] in *. now rewrite Hc, IH.
Qed.

Lemma lower_letter_or_space c :
  Re.alpha c || Py.isspace c = true ->
  lower_letter (Py.lower_char c) || Py.isspace (Py.lower_char c) = true.
Proof. by_cases_on_char c. Qed.

Lemma lower_chars s :
  Py.all_chars (fun c => Re.alpha c || Py.isspace c) s = true ->
  Py.all_chars (fun c => lower_letter c || Py.isspace c) (Py.lower s) = true.
Proof.
  induction s as [|c s IH]; simpl; [reflexivity|].
  intros H. apply andb_true_iff in H as [Hc H].
  now rewrite (lower_letter_or_space c Hc), IH.
Qed.

Lemma split_ws_from_chars s : forall tok,
  Py.all_chars lower_letter tok = true ->
  Py.all_chars (fun c => lower_letter c || Py.isspace c) s = true ->
  Forall (fun t => Py.all_chars lower_letter t = true) (split_ws_from tok s).
Proof.
  induction s as [|c s IH]; intros tok Ht Hs; simpl.
  - destruct (Py.truthy tok); auto.
  - simpl in Hs. apply andb_true_iff in Hs as [Hc Hs].
    destruct (Py.isspace c) eqn:E.
    + destruct (Py.truthy tok); auto.
    + apply IH; [|assumption]. rewrite all_chars_app, Ht. simpl.
      rewrite orb_false_r in Hc. now rewrite Hc.
Qed.

Lemma guess_tokens_chars name :
  Forall (fun t => Py.all_chars lower_letter t = true /\ Py.truthy t = true)
         (split_ws (guess_name name)).
Proof.
  pose proof (split_ws_from_truthy (guess_name name) "") as H1.
  assert (H2 : Forall (fun t => Py.all_chars lower_letter t = true)
                      (split_ws (guess_name name))).
  { apply split_ws_from_chars; [reflexivity|]. unfold guess_name, Py.strip.
    apply lower_chars, rstrip_chars, lstrip_chars, keep_letters_spaces_chars. }
  unfold split_ws in *. rewrite Forall_forall in *. intros t Ht. auto.
Qed.

Lemma lower_letter_guess_char c : lower_letter c = true -> guess_char c = true.
Proof. unfold guess_char. now intros ->. Qed.

Lemma first_letter_chars p s :
  Py.all_chars p s = true -> Py.all_chars p (first_letter s) = true.
Proof.
  destruct s as [|c s]; simpl; [reflexivity|].
  intros H. apply andb_true_iff in H as [-> _]. reflexivity.
Qed.

Lemma guess_bases_chars parts :
  Forall (fun t => Py.all_chars lower_letter t = true /\ Py.truthy t = true) parts ->
  Forall (fun b => Py.all_chars guess_char b = true /\ Py.truthy b = true)
         (guess_bases parts).
Proof.
  intros H. unfold guess_bases. destruct parts as [|f rest]; [constructor|].
  assert (Hf : Py.all_chars guess_char f = true /\ Py.truthy f = true).
  { inversion H as [|? ? [Hc Ht] _]; subst. split; [|assumption].
    exact (all_chars_weaken _ _ f lower_letter_guess_char Hc). }
  destruct Hf as [Hf Tf].
  set (last := if 1 <? List.length (f :: rest)
               then List.last (f :: rest) "" else "").
  assert (Hl : Py.all_chars guess_char last = true).
  { subst last. destruct (1 <? List.length (f :: rest)); [|reflexivity].
    rewrite Forall_forall in H.
    destruct (H (List.last (f :: rest) "")) as [Hc _];
      [apply last_In; discriminate|].
    exact (all_chars_weaken _ _ _ lower_letter_guess_char Hc). }
  assert (Tfx : forall x, Py.truthy (f ++ x) = true)
    by (intros x; destruct f; [discriminate | reflexivity]).
  apply Forall_app. split; [|repeat constructor; assumption].
  destruct (Py.truthy last) eqn:Tl; [|constructor].
  assert (Tfl : Py.truthy (first_letter f ++ last) = true)
    by (destruct f; [discriminate | reflexivity]).
  repeat constructor; auto;
    rewrite ?all_chars_app; cbn [Py.all_chars];
    rewrite ?all_chars_app, ?Hf, ?Hl, ?(first_letter_chars _ _ Hf),
      ?(first_letter_chars _ _ Hl); reflexivity.
Qed.

(** X6: [guess_emails] gives at most seven addresses, pairwise distinct,
    each a non-empty local part of lower-case letters and [. _ -] followed
    by [@] and the domain as given. *)
Theorem guess_emails_bounded (full dom : string) :
  NoDup (guess_emails full dom)
  /\ List.length (guess_emails full dom) <= 7
  /\ forall e, In e (guess_emails full dom) ->
       exists b, e = b ++ "@" ++ dom /\ b <> ""
                 /\ Py.all_chars guess_char b = true.
Proof.
  unfold guess_emails.
  destruct (negb (Py.truthy dom) || negb (Py.truthy full));
    [repeat split; [constructor | simpl; lia | intros e []]|].
  destruct (negb (Py.truthy (guess_name full)));
    [repeat split; [constructor | simpl; lia | intros e []]|].
  split; [apply NoDup_nodup|]. split.
  - transitivity (List.length (map (fun b => b ++ "@" ++ dom)
                                   (guess_bases (split_ws (guess_name full))))).
    + apply NoDup_incl_length; [apply NoDup_nodup|].
      intros x Hx. now apply nodup_In in Hx.
    + rewrite length_map. apply guess_bases_length.
  - intros e He. apply nodup_In, in_map_iff in He as (b & <- & Hb).
    pose proof (guess_bases_chars _ (guess_tokens_chars full)) as HF.
    rewrite Forall_forall in HF. destruct (HF b Hb) as [Hc Ht].
    exists b. repeat split; [|assumption]. intros ->. discriminate.
Qed.

Lemma lstrip_all_space s : Py.all_chars Py.isspace s = true -> Py.lstrip s = "".
Proof.
  induction s as [|c s IH]; simpl; [reflexivity|].
  intros H. apply andb_true_iff in H as [-> H]. now apply IH.
Qed.

Lemma keep_letters_spaces_no_letter s :
  Py.all_chars (fun c => negb (Re.alpha c)) s = true ->
  Py.all_chars Py.isspace (keep_letters_spaces s) = true.
Proof.
  induction s as [|c s IH]; simpl; [reflexivity|].
  intros H. apply andb_true_iff in H as [Hc H]. apply negb_true_iff in Hc.
  rewrite Hc. simpl. destruct (Py.isspace c) eqn:E; simpl; [rewrite E|]; auto.
Qed.

(** X7: a display name without any ASCII letter (digits, punctuation,
    letters of other alphabets) gives no guess, whatever the domain. *)
Theorem guess_emails_no_letter (full dom : string) :
  Py.all_chars (fun c => negb (Re.alpha c)) full = true ->
  guess_emails full dom = [].
Proof.
  intros H. unfold guess_emails.
  destruct (negb (Py.truthy dom) || negb (Py.truthy full)); [reflexivity|].
  assert (E : guess_name full = "").
  { unfold guess_name, Py.strip.
    now rewrite (lstrip_all_space _ (keep_letters_spaces_no_letter full H)). }
  now rewrite E.
Qed.

Lemma guess_emails_no_letter_witness : guess_emails "2024 !!" "foo.com" = [].
Proof. apply guess_emails_no_letter. reflexivity. Defined.

(** X8: when the cleaned name is a single token, the only guess is that
    token at the domain: no pattern is built on an empty last name. *)
Theorem guess_emails_single_token (full dom t : string) :
  dom <> "" ->
  split_ws (guess_name full) = [t] ->
  guess_emails full dom = [t ++ "@" ++ dom].
Proof.
  intros Hd Ht. unfold guess_emails.
  destruct dom as [|d0 dom]; [congruence|].
  destruct full as [|f0 full]; [discriminate|].
  change (negb (Py.truthy (String d0 dom)) || negb (Py.truthy (String f0 full)))
    with false. cbv iota.
  destruct (guess_name (String f0 full)) eqn:E; [discriminate|].
  change (negb (Py.truthy (String a s))) with false. cbv iota.
  rewrite Ht. reflexivity.
Qed.

Lemma guess_emails_single_token_witness :
  guess_emails "Cher 2" "foo.com" = ["cher@foo.com"].
Proof.
  apply (guess_emails_single_token "Cher 2" "foo.com" "cher");
    [discriminate | reflexivity].
Defined.

(** ** scraper.py: the fetcher *)

(** X9: whatever the network answers, the fetcher issues the HEAD first
    and at most one GET after it; its status is "ok" or starts with
    "skip_large:", "http_" or "error:"; the address and link sets are empty
    unless the status is "ok" (so also when no GET was made), and neither
    set repeats an element. *)
Theorem fetch_outcomes (w : World) (url : string) (max_bytes : Z) :
  let '(ev, (emails, links, status)) :=
    extract_emails_and_links_from_url w url max_bytes in
  (ev = [EvHead url] \/ ev = [EvHead url; EvGet url])
  /\ (status = "ok"
      \/ Py.startswith "skip_large:" status = true
      \/ Py.startswith "http_" status = true
      \/ Py.startswith "error:" status = true)
  /\ (String.eqb status "ok" = false -> emails = [] /\ links = [])
  /\ (ev = [EvHead url] -> emails = [] /\ links = [])
  /\ NoDup emails /\ NoDup links.
Proof.
  unfold extract_emails_and_links_from_url.
  destruct (http_head w url) as [exn|cl].
  { repeat split; auto; constructor. }
  destruct (if Py.truthy _ then _ else _) as [size|].
  2:{ repeat split; auto; constructor. }
  destruct (negb (size =? 0)%Z && (max_bytes <? size)%Z).
  { repeat split; auto; constructor. }
  destruct (http_get w url) as [exn|code final page].
  { repeat split; auto; constructor. }
  destruct (400 <=? code)%Z.
  { repeat split; auto; constructor. }
  repeat split; auto; try discriminate; apply NoDup_nodup.
Qed.

(** X10: when the size probe fails the page is not fetched: a HEAD that
    raises gives "error:" with the exception's name, and a Content-Length
    that is not an integer gives "error:ValueError", both with empty sets
    and without the GET. *)
Theorem fetch_probe_failure (w : World) (url : string) (max_bytes : Z) :
  (forall exn, http_head w url = HeadRaised exn ->
     extract_emails_and_links_from_url w url max_bytes
     = ([EvHead url], ([], [], "error:" ++ exn)))
  /\ (forall cl, http_head w url = HeadOk (Some cl) -> cl <> "" ->
        py_int cl = None ->
        extract_emails_and_links_from_url w url max_bytes
        = ([EvHead url], ([], [], "error:ValueError"))).
Proof.
  unfold extract_emails_and_links_from_url. split.
  - intros exn ->. reflexivity.
  - intros cl -> Hne Hint. destruct cl; [congruence|].
    change (Py.truthy (String a cl)) with true. cbv iota. now rewrite Hint.
Qed.

Lemma fetch_probe_failure_witness :
  extract_emails_and_links_from_url sample_world_bad_length
    "https://janedoe.art/contact" 1000000
  = ([EvHead "https://janedoe.art/contact"], ([], [], "error:ValueError")).
Proof.
  apply (proj2 (fetch_probe_failure sample_world_bad_length
                  "https://janedoe.art/contact" 1000000) "1.5e6");
    [reflexivity | discriminate | reflexivity].
Defined.

(** X11: a fetch that ends with status "ok" got a response with a status
    code below 400; its links are exactly the anchors' hrefs that start
    neither with [#] nor with [mailto:], each resolved against the final
    URL, and its addresses are exactly those of the mailto links together
    with those extracted from the page text joined with the meta
    contents. *)
Theorem fetch_ok_content (w : World) (url : string) (max_bytes : Z)
    (ev : list Event) (emails links : list string) :
  extract_emails_and_links_from_url w url max_bytes = (ev, (emails, links, "ok")) ->
  exists code final page,
    http_get w url = GetOk code final page
    /\ (code < 400)%Z
    /\ ev = [EvHead url; EvGet url]
    /\ (forall l, In l links <->
          exists href, In href (anchor_hrefs page)
                       /\ Py.startswith "#" href = false
                       /\ Py.startswith "mailto:" href = false
                       /\ l = urljoin w final href)
    /\ (forall e, In e emails <->
          In e (mailto_addresses (mailto_hrefs page))
          \/ In e (extract_emails_from_text
                     (join_spaces (page_text page :: meta_contents page)))).
Proof.
  unfold extract_emails_and_links_from_url.
  destruct (http_head w url) as [exn|cl]; [intros [=]|].
  destruct (if Py.truthy _ then _ else _) as [size|]; [|intros [=]].
  destruct (negb (size =? 0)%Z && (max_bytes <? size)%Z); [intros [=]|].
  destruct (http_get w url) as [exn|code final page]; [intros [=]|].
  destruct (400 <=? code)%Z eqn:E; [intros [=]|].
  intros H. inversion H; subst. clear H.
  exists code, final, page. apply Z.leb_gt in E.
  repeat split; auto.
  - intros Hl. apply nodup_In in Hl. unfold regular_links in Hl.
    apply in_map_iff in Hl as (href & <- & Hh).
    apply filter_In in Hh as [Hin Hf].
    apply negb_true_iff, orb_false_iff in Hf as [H1 H2]. now exists href.
  - intros (href & Hin & H1 & H2 & ->). apply nodup_In.
    unfold regular_links. apply in_map, filter_In. now rewrite H1, H2.
  - intros He. apply nodup_In in He. now apply in_app_iff in He.
  - intros He. apply nodup_In. now apply in_app_iff.
Qed.

Lemma fetch_ok_content_witness :
  exists code final page,
    http_get sample_world "https://janedoe.art/contact" = GetOk code final page
    /\ (code < 400)%Z
    /\ [EvHead "https://janedoe.art/contact"; EvGet "https://janedoe.art/contact"]
       = [EvHead "https://janedoe.art/contact"; EvGet "https://janedoe.art/contact"]
    /\ (forall l, In l [] <->
          exists href, In href (anchor_hrefs page)
                       /\ Py.startswith "#" href = false
                       /\ Py.startswith "mailto:" href = false
                       /\ l = urljoin sample_world final href)
    /\ (forall e, In e ["hello@janedoe.art"] <->
          In e (mailto_addresses (mailto_hrefs page))
          \/ In e (extract_emails_from_text
                     (join_spaces (page_text page :: meta_contents page)))).
Proof.
  apply (fetch_ok_content sample_world "https://janedoe.art/contact" 1000000).
  reflexivity.
Defined.

Lemma substring_skip p n s : substring (length p) n (p ++ s) = substring 0 n s.
Proof. induction p as [|c p IH]; simpl; [reflexivity | exact IH]. Qed.

Lemma substring_prefix a q : substring 0 (length a) (a ++ q) = a.
Proof.
  induction a as [|c a IH]; simpl; [now destruct q | now rewrite IH].
Qed.

(** X12: the address of a mailto link is taken as written: for a href
    "mailto:" followed by a non-empty text without [?] and then nothing or
    a query starting with [?], the fetcher keeps exactly that text, whether
    or not it is an address. *)
Theorem mailto_address_verbatim (a q : string) :
  a <> "" ->
  Py.all_chars (fun c => negb (Re.lit "?" c)) a = true ->
  match q with String c _ => c = "?"%char | EmptyString => True end ->
  mailto_address ("mailto:" ++ a ++ q) = Some a.
Proof.
  intros Ha Hc Hq. destruct a as [|a0 a]; [congruence|].
  simpl in Hc. apply andb_true_iff in Hc as [H0 Hc].
  assert (Hm : Re.match_alt MAILTO_REGEX ("mailto:" ++ String a0 a ++ q) = Some q).
  { unfold MAILTO_REGEX, Re.plus. cbn [app Re.match_alt].
    cbn [append]. rewrite !match_one_eq.
    change (Re.lit "m" "m") with true. change (Re.lit "a" "a") with true.
    change (Re.lit "i" "i") with true. change (Re.lit "l" "l") with true.
    change (Re.lit "t" "t") with true. change (Re.lit "o" "o") with true.
    change (Re.lit ":" ":") with true. cbv beta iota. rewrite H0.
    rewrite (match_star_run _ [] a q q Hc); [reflexivity| |reflexivity].
    destruct q as [|c q]; [exact I|]. now subst c. }
  unfold mailto_address.
  assert (Hs : Re.search MAILTO_REGEX ("mailto:" ++ String a0 a ++ q)
               = Some ("mailto:" ++ String a0 a ++ q, q)).
  { cbn [append]. cbn [Re.search]. cbn [append] in Hm. now rewrite Hm. }
  rewrite Hs. f_equal.
  rewrite !length_append.
  replace (length "mailto:" + (length (String a0 a) + length q) - length q - 7)
    with (length (String a0 a)) by (change (length "mailto:") with 7; lia).
  change 7 with (length "mailto:") at 1.
  rewrite substring_skip. apply substring_prefix.
Qed.

Lemma mailto_address_verbatim_witness :
  mailto_address "mailto:press office (see below)?subject=hi"
  = Some "press office (see below)".
Proof.
  apply (mailto_address_verbatim "press office (see below)" "?subject=hi");
    [discriminate | reflexivity | reflexivity].
Defined.

(** ** scraper.py: the SMTP handshake *)





Lemma smtp_try_hosts_status w em hosts :
  In (fst (snd (smtp_try_hosts w em hosts))) ["accepted"; "refused"; "unknown"]
  /\ (fst (snd (smtp_try_hosts w em hosts)) = "accepted" ->
      exists host code,
        In host hosts /\ smtp_session w host em = SmtpReply code
        /\ (200 <= code < 300)%Z
        /\ snd (snd (smtp_try_hosts w em hosts)) = host).
Proof.
  induction hosts as [|x hosts [IH1 IH2]]; simpl.
  - split; [tauto | discriminate].
  - assert (Hnext : forall ev res,
              smtp_try_hosts w em hosts = (ev, res) ->
              In (fst res) ["accepted"; "refused"; "unknown"]
              /\ (fst res = "accepted" ->
                  exists host code,
                    (x = host \/ In host hosts)
                    /\ smtp_session w host em = SmtpReply code
                    /\ (200 <= code < 300)%Z /\ snd res = host)).
    { intros ev res E. rewrite E in IH1, IH2. simpl in *.
      split; [assumption|]. intros H.
      destruct (IH2 H) as (host & code & Hin & Hs & Hc & Hn).
      exists host, code. repeat split; auto; lia. }
    destruct (smtp_session w x em) as [code| |code] eqn:E.
    + destruct ((200 <=? code)%Z && (code <? 300)%Z) eqn:E2; simpl.
      * split; [tauto|]. intros _. exists x, code.
        apply andb_true_iff in E2 as [A B].
        apply Z.leb_le in A. apply Z.ltb_lt in B. repeat split; auto.
      * destruct ((500 <=? code)%Z && (code <? 600)%Z); simpl;
          (split; [tauto | discriminate]).
    + destruct (smtp_try_hosts w em hosts) as [ev res]. now apply (Hnext ev).
    + destruct (smtp_try_hosts w em hosts) as [ev res]. now apply (Hnext ev).
Qed.

(** X15: the handshake never reports "accepted" without a mail host of the
    address's domain having answered RCPT with a 2xx code; the note then
    names that host, and the status is always one of accepted, refused and
    unknown. *)
Theorem smtp_accepted_sound (w : World) (em : string) :
  In (fst (snd (smtp_handshake_check w em))) ["accepted"; "refused"; "unknown"]
  /\ (fst (snd (smtp_handshake_check w em)) = "accepted" ->
      exists loc domain hosts host code,
        Py.split_first "@" em = Some (loc, domain)
        /\ dns_mx w domain = Some hosts
        /\ In host hosts
        /\ smtp_session w host em = SmtpReply code
        /\ (200 <= code < 300)%Z
        /\ snd (snd (smtp_handshake_check w em)) = host).
Proof.
  unfold smtp_handshake_check.
  destruct (Py.split_first "@" em) as [[loc domain]|];
    [|split; [simpl; tauto | discriminate]].
  destruct (dns_mx w domain) as [hosts|] eqn:Ed;
    [|split; [simpl; tauto | discriminate]].
  destruct (smtp_try_hosts_status w em hosts) as [H1 H2].
  destruct (smtp_try_hosts w em hosts) as [ev res]. simpl in *.
  split; [assumption|]. intros H.
  destruct (H2 H) as (host & code & Hin & Hs & Hc & Hn).
  exists loc, domain, hosts, host, code. repeat split; auto; lia.
Qed.

(** ** scraper.py: the rows of a run *)

Lemma smtp_handshake_status w em :
  In (fst (snd (smtp_handshake_check w em))) ["accepted"; "refused"; "unknown"].
Proof.
  unfold smtp_handshake_check.
  destruct (Py.split_first "@" em) as [[loc domain]|]; [|simpl; tauto].
  destruct (dns_mx w domain) as [hosts|]; [|simpl; tauto].
  destruct (smtp_try_hosts_status w em hosts) as [H _].
  now destruct (smtp_try_hosts w em hosts) as [ev res].
Qed.

Lemma candidate_row_columns w a u full ext em src :
  let r := candidate_row w a u full ext em src in
  let mx_ok := mx_exists w (Py.after_last "@" em) in
  mx r = py_str_bool mx_ok
  /\ if smtp_verify a && mx_ok
     then In (smtp_status r) ["accepted"; "refused"; "unknown"]
     else smtp_status r = "" /\ smtp_note r = "".
Proof.
  unfold candidate_row, candidate_check.
  pose proof (smtp_handshake_status w em) as Hs.
  destruct (smtp_verify a && mx_exists w (Py.after_last "@" em)).
  - destruct (smtp_handshake_check w em) as [ev [st note]]. now simpl in *.
  - now simpl.
Qed.

Lemma process_profile_rows w a u r :
  In r (process_profile w a u) ->
  (exists exn,
     profile_from_username w u = inl exn
     /\ r = mkRow u "" "" "" "error" "" "" ("profile_error:" ++ exn))
  \/ exists p ext em src,
       profile_from_username w u = inr p
       /\ In src ["bio"; "site"; "site_deep"; "guess_personal"]
       /\ r = candidate_row w a u (p_full_name p) ext em src.
Proof.
  unfold process_profile.
  destruct (profile_from_username w u) as [exn|p].
  { intros [<-|[]]. left. now exists exn. }
  intros Hr. right. exists p.
  set (full := p_full_name p) in *. set (ext := p_external_url p) in *.
  assert (Hbio : forall l, In r (map (fun em => candidate_row w a u full ext em "bio") l) ->
                 exists ext0 em src,
                   @inr string Profile p = inr p
                   /\ In src ["bio"; "site"; "site_deep"; "guess_personal"]
                   /\ r = candidate_row w a u full ext0 em src).
  { intros l H. apply in_map_iff in H as (em & <- & _).
    exists ext, em, "bio". simpl. tauto. }
  destruct (negb (Py.truthy ext)); [now apply Hbio in Hr|].
  destruct (snd (extract_emails_and_links_from_url w ext (max_site_bytes a)))
    as [[site_emails links] note].
  destruct (deep_crawl w a u full (candidate_domains w links) 0 [])
    as [deep personal] eqn:E.
  destruct (deep_crawl_spec _ _ _ _ _ _ _ _ _ E) as [Hdeep _].
  apply in_app_iff in Hr as [Hr|Hr]; [now apply Hbio in Hr|].
  apply in_app_iff in Hr as [Hr|Hr].
  { apply in_map_iff in Hr as (em & <- & _). exists ext, em, "site".
    simpl. tauto. }
  apply in_app_iff in Hr as [Hr|Hr].
  { apply Hdeep in Hr as (link & em & ->). exists link, em, "site_deep".
    simpl. tauto. }
  apply guess_rows_In in Hr as (dom & em & _ & _ & _ & ->).
  exists ("https://" ++ dom), em, "guess_personal". simpl. tauto.
Qed.

(** X16: every row of a run carries a user name of the input list and one
    of the five sources error, bio, site, site_deep, guess_personal. *)
Theorem main_rows_labelled (w : World) (a : Args) (users : list string) (r : Row) :
  In r (main w a users) ->
  In (username r) users
  /\ In (source r) ["error"; "bio"; "site"; "site_deep"; "guess_personal"].
Proof.
  unfold main. intros H. apply in_flat_map in H as (u & Hu & Hr).
  apply process_profile_rows in Hr
    as [(exn & _ & ->)|(p & ext & em & src & _ & Hsrc & ->)].
  - simpl. tauto.
  - destruct (candidate_row_fields w a u (p_full_name p) ext em src)
      as (-> & _ & _ & ->).
    split; [assumption|]. now right.
Qed.

Lemma main_rows_labelled_witness :
  In (username sample_guess_row) ["jane"; "ghost"]
  /\ In (source sample_guess_row)
        ["error"; "bio"; "site"; "site_deep"; "guess_personal"].
Proof.
  apply (main_rows_labelled sample_world sample_args ["jane"; "ghost"]).
  vm_compute. repeat (first [left; reflexivity | right]).
Defined.

(** X17: in every row that is no error placeholder, the mx column is the
    outcome of the MX lookup on the text after the last [@] of the address;
    status and note are empty unless verification is switched on and that
    lookup succeeded, and the status is then accepted, refused or
    unknown. *)
Theorem main_verification_columns (w : World) (a : Args) (users : list string)
    (r : Row) :
  In r (main w a users) ->
  String.eqb (source r) "error" = false ->
  mx r = py_str_bool (mx_exists w (Py.after_last "@" (email r)))
  /\ if smtp_verify a && mx_exists w (Py.after_last "@" (email r))
     then In (smtp_status r) ["accepted"; "refused"; "unknown"]
     else smtp_status r = "" /\ smtp_note r = "".
Proof.
  unfold main. intros H Hsrc. apply in_flat_map in H as (u & Hu & Hr).
  apply process_profile_rows in Hr
    as [(exn & _ & ->)|(p & ext & em & src & _ & _ & ->)]; [discriminate|].
  destruct (candidate_row_fields w a u (p_full_name p) ext em src)
    as (_ & _ & -> & _).
  apply candidate_row_columns.
Qed.

Lemma main_verification_columns_witness :
  mx sample_guess_row
  = py_str_bool (mx_exists sample_world (Py.after_last "@" (email sample_guess_row)))
  /\ if smtp_verify sample_args
        && mx_exists sample_world (Py.after_last "@" (email sample_guess_row))
     then In (smtp_status sample_guess_row) ["accepted"; "refused"; "unknown"]
     else smtp_status sample_guess_row = "" /\ smtp_note sample_guess_row = "".
Proof.
  apply (main_verification_columns sample_world sample_args ["jane"; "ghost"]).
  - vm_compute. repeat (first [left; reflexivity | right]).
  - reflexivity.
Defined.

(** X18: a user whose profile could not be loaded has no record in the
    reduced log: the run writes a single error placeholder for the user and
    the filter stage of the cleaner removes it. *)
Theorem failed_profile_not_reduced (w : World) (a : Args) (users : list string)
    (u exn : string) :
  profile_from_username w u = inl exn ->
  ~ In u (map username (reduce (main w a users))).
Proof.
  intros Hp Hin. apply in_map_iff in Hin as (r & Hu & Hr).
  apply reduce_sub in Hr as [Hr Hf]. unfold main in Hr.
  apply in_flat_map in Hr as (u' & _ & Hr).
  apply process_profile_rows in Hr
    as [(exn' & _ & ->)|(p & ext & em & src & Hp' & _ & ->)].
  - apply Hf. right; right; right; now left.
  - destruct (candidate_row_fields w a u' (p_full_name p) ext em src)
      as (Eu & _).
    rewrite Eu in Hu. subst u'. congruence.
Qed.

Lemma failed_profile_not_reduced_witness :
  profile_from_username sample_world "ghost" = inl "ProfileNotExistsException"
  /\ ~ In "ghost" (map username (reduce (main sample_world sample_args
                                            ["jane"; "ghost"]))).
Proof.
  split; [reflexivity|].
  apply (failed_profile_not_reduced sample_world sample_args ["jane"; "ghost"]
           "ghost" "ProfileNotExistsException").
  reflexivity.
Defined.

(** ** scraper.py: the deep crawl *)

Lemma deep_crawl_firstn w a u full items : forall n personal,
  (0 <= n)%Z ->
  deep_crawl w a u full items n personal
  = deep_crawl w a u full
      (firstn (Z.to_nat (max_deep_links a - n)) items) n personal.
Proof.
  induction items as [|[d l] items IH]; intros n personal Hn.
  - now rewrite firstn_nil.
  - destruct (max_deep_links a <=? n)%Z eqn:E.
    + apply Z.leb_le in E.
      replace (Z.to_nat (max_deep_links a - n)) with 0%nat by lia.
      simpl. apply Z.leb_le in E. now rewrite E.
    + apply Z.leb_gt in E.
      replace (Z.to_nat (max_deep_links a - n))
        with (S (Z.to_nat (max_deep_links a - (n + 1)))) by lia.
      cbn [firstn deep_crawl]. apply Z.leb_gt in E. rewrite E.
      destruct (snd (extract_emails_and_links_from_url w l (max_site_bytes a)))
        as [[ems lks] note].
      now rewrite <- IH by lia.
Qed.

Lemma deep_crawl_sources w a u full items : forall n personal rows personal',
  deep_crawl w a u full items n personal = (rows, personal') ->
  (forall r, In r rows -> exists dom, In (dom, external_url r) items)
  /\ (forall dom, In dom personal' -> In dom personal \/ In dom (map fst items)).
Proof.
  induction items as [|[d l] items IH]; intros n personal rows personal' H;
    simpl in H.
  - inversion H; subst. split; [intros r []|]. tauto.
  - destruct (max_deep_links a <=? n)%Z.
    { inversion H; subst. split; [intros r []|]. tauto. }
    destruct (snd (extract_emails_and_links_from_url w l (max_site_bytes a)))
      as [[ems lks] note].
    destruct (deep_crawl w a u full items (n + 1)
                (match ems with [] => personal | _ => set_add d personal end))
      as [rows1 p1] eqn:E.
    inversion H; subst rows personal'. clear H.
    destruct (IH _ _ _ _ E) as [IHr IHp]. split.
    + intros r Hr. apply in_app_iff in Hr as [Hr|Hr].
      * apply in_map_iff in Hr as (em & <- & _). exists d.
        destruct (candidate_row_fields w a u full l em "site_deep")
          as (_ & -> & _). now left.
      * destruct (IHr r Hr) as [dom Hd]. exists dom. now right.
    + intros dom Hd. apply IHp in Hd as [Hd|Hd]; [|right; now right].
      destruct ems; [now left|].
      apply in_set_add in Hd as [->|Hd]; [right; now left | now left].
Qed.

(** X19: the deep crawl looks at no candidate domain past the first
    [max_deep_links]: its rows and personal domains are those of the crawl
    of that prefix, every site_deep row comes from a link of the prefix and
    every personal domain is a domain of it (so a cap of zero or less gives
    no row and no guess). *)
Theorem deep_crawl_cap (w : World) (a : Args) (u full : string)
    (items : list (string * string)) :
  let visited := firstn (Z.to_nat (max_deep_links a)) items in
  deep_crawl w a u full items 0 [] = deep_crawl w a u full visited 0 []
  /\ List.length visited <= Z.to_nat (max_deep_links a)
  /\ (forall r, In r (fst (deep_crawl w a u full items 0 [])) ->
        exists dom, In (dom, external_url r) visited)
  /\ (forall dom, In dom (snd (deep_crawl w a u full items 0 [])) ->
        In dom (map fst visited)).
Proof.
  intros visited.
  assert (E : deep_crawl w a u full items 0 [] = deep_crawl w a u full visited 0 []).
  { subst visited. rewrite (deep_crawl_firstn w a u full items 0 []) by lia.
    now rewrite Z.sub_0_r. }
  split; [exact E|]. split; [apply firstn_le_length|].
  rewrite E. destruct (deep_crawl w a u full visited 0 []) as [rows p] eqn:D.
  destruct (deep_crawl_sources _ _ _ _ _ _ _ _ _ D) as [H1 H2].
  split; [exact H1|]. intros dom Hd. now destruct (H2 dom Hd) as [[]|].
Qed.

(** ** scraper.py: choosing the links to crawl *)

Lemma domain_from_url_truthy w url d :
  domain_from_url w url = Some d -> Py.truthy d = true.
Proof.
  unfold domain_from_url. destruct (negb (Py.truthy url)); [discriminate|].
  destruct (tld_extract w url) as [dm sf].
  destruct dm as [|c dm]; simpl; [discriminate|].
  destruct (negb (Py.truthy sf)); [discriminate|]. now intros [= <-].
Qed.

Lemma mem_keys {V} k (d : Py.dict V) : Py.mem k d = true <-> In k (Py.keys d).
Proof.
  unfold Py.mem. pose proof (get_none_keys d k) as H.
  destruct (Py.get k d).
  - split; [|reflexivity]. intros _.
    destruct (in_dec string_dec k (Py.keys d)) as [|Hn]; [assumption|].
    apply H in Hn. discriminate.
  - split; [discriminate|]. intros Hin. now apply H in Hin.
Qed.

Lemma candidate_fold w links : forall seen cd,
  NoDup (Py.keys cd) ->
  (forall d link, In (d, link) cd ->
     is_aggregator_or_social d = false
     /\ domain_from_url w link = Some d
     /\ exists p q, seen = app p (link :: q)
                    /\ forall l, In l p -> domain_from_url w l <> Some d) ->
  (forall l d, In l seen -> domain_from_url w l = Some d ->
     is_aggregator_or_social d = false -> In d (Py.keys cd)) ->
  let out := fold_left (candidate_step w) links cd in
  NoDup (Py.keys out)
  /\ (forall d link, In (d, link) out ->
        is_aggregator_or_social d = false
        /\ domain_from_url w link = Some d
        /\ exists p q, app seen links = app p (link :: q)
                       /\ forall l, In l p -> domain_from_url w l <> Some d)
  /\ (forall l d, In l (app seen links) -> domain_from_url w l = Some d ->
        is_aggregator_or_social d = false -> In d (Py.keys out)).
Proof.
  induction links as [|x links IH]; intros seen cd Hnd Hent Hall; simpl.
  - rewrite app_nil_r. auto.
  - replace (app seen (x :: links)) with (app (app seen [x]) links)
      by now rewrite <- app_assoc.
    assert (Hold : forall d link, In (d, link) cd ->
              is_aggregator_or_social d = false
              /\ domain_from_url w link = Some d
              /\ exists p q, app seen [x] = app p (link :: q)
                   /\ forall l, In l p -> domain_from_url w l <> Some d).
    { intros d link Hin. destruct (Hent d link Hin) as (A & B & p & q & -> & C).
      repeat split; auto. exists p, (app q [x]). now rewrite <- app_assoc. }
    assert (Hstep : candidate_step w cd x
                    = match domain_from_url w x with
                      | None => cd
                      | Some d =>
                          if negb (Py.truthy d) || is_aggregator_or_social d then cd
                          else if Py.mem d cd then cd else Py.set d x cd
                      end) by reflexivity.
    rewrite Hstep. clear Hstep.
    destruct (domain_from_url w x) as [dx|] eqn:Ex.
    2:{ apply IH; auto. intros l d Hl Hd. apply in_app_iff in Hl as [Hl|[<-|[]]];
          [eauto | congruence]. }
    destruct (negb (Py.truthy dx) || is_aggregator_or_social dx) eqn:Eb.
    { apply IH; auto. intros l d Hl Hd Ha.
      apply in_app_iff in Hl as [Hl|[<-|[]]]; [eauto|].
      rewrite Ex in Hd. injection Hd as <-.
      rewrite (domain_from_url_truthy w x dx Ex), Ha in Eb. discriminate. }
    apply orb_false_iff in Eb as [_ Ea].
    destruct (Py.mem dx cd) eqn:Em.
    { apply IH; auto. intros l d Hl Hd Ha.
      apply in_app_iff in Hl as [Hl|[<-|[]]]; [eauto|].
      rewrite Ex in Hd. injection Hd as <-. now apply mem_keys. }
    assert (Hfresh : Py.get dx cd = None).
    { unfold Py.mem in Em. now destruct (Py.get dx cd). }
    rewrite (set_fresh cd dx x Hfresh).
    apply IH.
    + unfold Py.keys. rewrite map_app. simpl.
      apply NoDup_app; [assumption | repeat constructor; simpl; tauto|].
      intros k Hk [<-|[]]. now apply get_none_keys in Hfresh.
    + intros d link Hin. apply in_app_iff in Hin as [Hin|[Heq|[]]]; [auto|].
      injection Heq as <- <-. repeat split; auto.
      exists seen, []. split; [reflexivity|].
      intros l Hl Hd. apply get_none_keys in Hfresh. apply Hfresh.
      now apply (Hall l dx).
    + intros l d Hl Hd Ha. unfold Py.keys. rewrite map_app. apply in_app_iff.
      apply in_app_iff in Hl as [Hl|[<-|[]]]; [left; eauto|].
      rewrite Ex in Hd. injection Hd as <-. right. now left.
Qed.

(** X20: the links chosen for the deep crawl hold one link per domain: the
    domains are pairwise distinct, none is an aggregator or a social
    platform, the link kept for a domain is the first link of that domain,
    and every link whose domain is determinable and neither aggregator nor
    social has its domain among them. *)
Theorem candidate_domains_first_link (w : World) (links : list string) :
  NoDup (Py.keys (candidate_domains w links))
  /\ (forall d link, In (d, link) (candidate_domains w links) ->
        is_aggregator_or_social d = false
        /\ domain_from_url w link = Some d
        /\ exists p q, links = app p (link :: q)
                       /\ forall l, In l p -> domain_from_url w l <> Some d)
  /\ (forall l d, In l links -> domain_from_url w l = Some d ->
        is_aggregator_or_social d = false ->
        In d (Py.keys (candidate_domains w links))).
Proof.
  unfold candidate_domains.
  apply (candidate_fold w links [] []); [constructor | intros ? ? [] | intros ? ? []].
Qed.

(** ** scraper.py: the user names of the input file *)

Lemma lstrip_char_head ch s : Py.startswith (String ch "") (lstrip_char ch s) = false.
Proof.
  induction s as [|c s IH]; [reflexivity|]. cbn [lstrip_char].
  destruct (Ascii.eqb c ch) eqn:E; [exact IH|].
  cbn [Py.startswith]. rewrite Ascii.eqb_sym, E. reflexivity.
Qed.

Lemma lstrip_char_all ch s :
  Py.all_chars (Re.lit ch) s = true -> lstrip_char ch s = "".
Proof.
  induction s as [|c s IH]; [reflexivity|]. cbn [Py.all_chars lstrip_char].
  intros H. apply andb_true_iff in H as [Hc H]. unfold Re.lit in Hc.
  now rewrite Hc, IH.
Qed.

(** X21: the user names are read line by line in order; each comes from a
    line that, stripped of surrounding white space, is not empty and does
    not start with [#], and is that stripped line without its leading [@]
    signs, so no name starts with [@]. *)
Theorem load_usernames_names (lines : list string) :
  (forall l1 l2, load_usernames (app l1 l2)
                 = app (load_usernames l1) (load_usernames l2))
  /\ forall u, In u (load_usernames lines) ->
       Py.startswith "@" u = false
       /\ exists line,
            In line lines
            /\ Py.truthy (Py.strip line) = true
            /\ Py.startswith "#" (Py.strip line) = false
            /\ u = lstrip_char "@" (Py.strip line).
Proof.
  split.
  - intros l1 l2. induction l1 as [|x l1 IH]; [reflexivity|].
    cbn [app load_usernames].
    destruct (negb (Py.truthy (Py.strip x)) || Py.startswith "#" (Py.strip x));
      cbn [app]; now rewrite IH.
  - induction lines as [|x lines IH]; intros u; [intros []|].
    cbn [load_usernames].
    destruct (negb (Py.truthy (Py.strip x)) || Py.startswith "#" (Py.strip x)) eqn:E.
    + intros H. destruct (IH u H) as (A & line & B & C).
      split; [assumption|]. exists line. split; [now right | assumption].
    + apply orb_false_iff in E as [E1 E2]. apply negb_false_iff in E1.
      intros [<-|H].
      * split; [apply lstrip_char_head|]. exists x. repeat split; auto. now left.
      * destruct (IH u H) as (A & line & B & C).
        split; [assumption|]. exists line. split; [now right | assumption].
Qed.

Lemma load_usernames_names_witness :
  Py.startswith "@" "jane.doe" = false
  /\ exists line,
       In line ["# team"; ""; " @jane.doe "; "@@bob"]
       /\ Py.truthy (Py.strip line) = true
       /\ Py.startswith "#" (Py.strip line) = false
       /\ "jane.doe" = lstrip_char "@" (Py.strip line).
Proof.
  apply (proj2 (load_usernames_names ["# team"; ""; " @jane.doe "; "@@bob"])).
  vm_compute. now left.
Defined.

(** X22: a line made of [@] signs only (with white space around it or not)
    is not skipped: it gives the empty user name, which the run then
    processes like any other. *)
Theorem load_usernames_only_at (line : string) (rest : list string) :
  Py.truthy (Py.strip line) = true ->
  Py.all_chars (Re.lit "@") (Py.strip line) = true ->
  load_usernames (line :: rest) = "" :: load_usernames rest.
Proof.
  intros Ht Ha. cbn [load_usernames]. rewrite Ht.
  destruct (Py.strip line) as [|c s] eqn:E; [discriminate|].
  assert (Hc : c = "@"%char).
  { simpl in Ha. apply andb_true_iff in Ha as [Hc _]. now apply lit_eq in Hc. }
  subst c. cbn [negb orb Py.startswith]. change (Ascii.eqb "#" "@") with false.
  cbn [andb]. now rewrite (lstrip_char_all "@" _ Ha).
Qed.

Lemma load_usernames_only_at_witness :
  load_usernames [" @@ "; "jane"] = [""; "jane"].
Proof.
  apply (load_usernames_only_at " @@ " ["jane"]); reflexivity.
Defined.

(** ** cleaner.py: writing the result *)

Lemma filtered_out_bool r :
  negb (is_error_row r) && is_valid_email (email r) = false -> filtered_out r.
Proof.
  intros H. unfold filtered_out.
  apply andb_false_iff in H as [H|H].
  - apply negb_false_iff, is_error_row_true in H. tauto.
  - destruct (string_dec (email r) "") as [|Hne]; [tauto|].
    destruct (Py.contains "@" (email r)) eqn:A; [|tauto].
    destruct (Py.contains "example.com" (Py.lower (email r))) eqn:B; [tauto|].
    assert (V : is_valid_email (email r) = true) by now apply is_valid_email_true.
    congruence.
Qed.

Lemma select_best_nil rows : select_best rows = [] -> rows = [].
Proof.
  destruct rows as [|r rows]; [reflexivity|]. intros H. exfalso.
  unfold select_best in H.
  destruct (fold_invariants (r :: rows) [] keyed_nil (NoDup_nil _))
    as (Hk & _ & Hin).
  assert (Hu : In (username r) (Py.keys (fold_left select_step (r :: rows) []))).
  { apply Hin. right. now left. }
  rewrite <- (usernames_values _ Hk), H in Hu. exact Hu.
Qed.

(** X23: the cleaner leaves emails_clean.csv untouched exactly when every
    row of the input is removed by the filter stage (so also for an empty
    input); otherwise it writes the reduced rows, of which there is at
    least one. *)
Theorem cleaner_main_writes (rows : list Row) :
  (cleaner_main rows = None <-> forall r, In r rows -> filtered_out r)
  /\ (forall out, cleaner_main rows = Some out -> out = reduce rows /\ out <> []).
Proof.
  unfold cleaner_main, save_output. fold (reduce rows). split.
  - split.
    + intros H r Hr. destruct (reduce rows) eqn:E; [|discriminate].
      apply select_best_nil in E.
      destruct (negb (is_error_row r) && is_valid_email (email r)) eqn:B;
        [|now apply filtered_out_bool].
      assert (Hin : In r (clean_rows rows)) by (apply filter_In; auto).
      rewrite E in Hin. destruct Hin.
    + intros H. destruct (reduce rows) as [|r l] eqn:E; [reflexivity|].
      assert (Hr : In r (reduce rows)) by (rewrite E; now left).
      apply reduce_sub in Hr as [Hr Hf]. now apply H in Hr.
  - intros out H. destruct (reduce rows) eqn:E; [discriminate|].
    injection H as <-. split; [reflexivity | discriminate].
Qed.

(** ** scraper.py: extraction finds what is there *)

(** X24: a text that is a list of well-formed addresses separated by single
    spaces (or one address alone) is extracted completely and exactly: the
    result is the set of the listed addresses. *)
Theorem extract_emails_complete (l : list string) :
  Forall email_shaped l ->
  forall e, In e (extract_emails_from_text (join_spaces l)) <-> In e l.
Proof.
  intros Hs e.
  assert (Ha : Forall address_like l).
  { eapply Forall_impl; [|exact Hs]. apply email_shaped_address_like. }
  unfold extract_emails_from_text.
  now rewrite (clean_join l Ha), (finditer_join l Hs), nodup_In.
Qed.

Lemma sample_address_shaped : email_shaped "jane.doe+ig@mail.janedoe.art".
Proof.
  exists "j"%char, "ane.doe+ig", "m"%char, "ail", "j"%char, "anedoe.art".
  repeat split.
Qed.

Lemma extract_emails_complete_witness :
  In "jane.doe+ig@mail.janedoe.art"
     (extract_emails_from_text (join_spaces ["jane.doe+ig@mail.janedoe.art"]))
  <-> In "jane.doe+ig@mail.janedoe.art" ["jane.doe+ig@mail.janedoe.art"].
Proof.
  apply (extract_emails_complete ["jane.doe+ig@mail.janedoe.art"]).
  repeat constructor. exact sample_address_shaped.
Defined.

(** ** scraper.py and cleaner.py together *)

Lemma bio_rows_source w a users r :
  In r (main w a users) -> source r = "bio" ->
  exists u p,
    In u users /\ profile_from_username w u = inr p
    /\ In (email r) (extract_emails_from_text (p_biography p)).
Proof.
  unfold main. intros H Hsrc. apply in_flat_map in H as (u & Hu & Hr).
  unfold process_profile in Hr.
  destruct (profile_from_username w u) as [exn|p] eqn:Ep.
  { destruct Hr as [<-|[]]. discriminate. }
  exists u, p. split; [assumption|]. split; [exact Ep|].
  set (full := p_full_name p) in *. set (ext := p_external_url p) in *.
  assert (Hbio : In r (map (fun em => candidate_row w a u full ext em "bio")
                          (extract_emails_from_text (p_biography p))) ->
                 In (email r) (extract_emails_from_text (p_biography p))).
  { intros H. apply in_map_iff in H as (em & <- & Hem).
    now destruct (candidate_row_fields w a u full ext em "bio")
      as (_ & _ & -> & _). }
  destruct (negb (Py.truthy ext)); [now apply Hbio|].
  destruct (snd (extract_emails_and_links_from_url w ext (max_site_bytes a)))
    as [[site_emails links] note].
  destruct (deep_crawl w a u full (candidate_domains w links) 0 [])
    as [deep personal] eqn:E.
  destruct (deep_crawl_spec _ _ _ _ _ _ _ _ _ E) as [Hdeep _].
  apply in_app_iff in Hr as [Hr|Hr]; [now apply Hbio|]. exfalso.
  apply in_app_iff in Hr as [Hr|Hr].
  { apply in_map_iff in Hr as (em & <- & _).
    destruct (candidate_row_fields w a u full ext em "site") as (_ & _ & _ & S).
    rewrite S in Hsrc. discriminate. }
  apply in_app_iff in Hr as [Hr|Hr].
  { apply Hdeep in Hr as (link & em & ->).
    destruct (candidate_row_fields w a u full link em "site_deep")
      as (_ & _ & _ & S).
    rewrite S in Hsrc. discriminate. }
  apply guess_rows_In in Hr as (dom & em & _ & _ & _ & ->).
  destruct (candidate_row_fields w a u full ("https://" ++ dom) em
              "guess_personal") as (_ & _ & _ & S).
  rewrite S in Hsrc. discriminate.
Qed.

Lemma app_truthy a c b : a ++ String c b <> "".
Proof. destruct a; discriminate. Qed.

(** X25: the address of a record of tier bio passes the validity test of
    the cleaner unless it holds "example.com": an address found in a
    biography is never empty and always has its [@]; and when the run was
    made without SMTP verification such a record is no error placeholder
    either. *)
Theorem bio_rows_valid (w : World) (a : Args) (users : list string) (r : Row) :
  In r (main w a users) -> source r = "bio" ->
  is_valid_email (email r)
  = negb (Py.contains "example.com" (Py.lower (email r)))
  /\ (smtp_verify a = false -> is_error_row r = false).
Proof.
  intros Hin Hsrc. split.
  - destruct (bio_rows_source w a users r Hin Hsrc) as (u & p & _ & _ & He).
    unfold extract_emails_from_text in He.
    apply nodup_In, finditer_shaped, email_shaped_parts in He.
    destruct He as (loc & dom & E & _ & _ & _ & _ & _).
    destruct (Py.contains "example.com" (Py.lower (email r))) eqn:C.
    + destruct (is_valid_email (email r)) eqn:V; [|reflexivity].
      apply is_valid_email_true in V. intuition congruence.
    + apply is_valid_email_true. rewrite E. repeat split.
      * apply app_truthy.
      * now rewrite <- E.
      * apply contains_app_r, contains_char_here.
  - intros Hv. unfold main in Hin. apply in_flat_map in Hin as (u & _ & Hr).
    apply process_profile_rows in Hr
      as [(exn & _ & ->)|(p & ext & em & src & _ & _ & ->)]; [discriminate|].
    pose proof (candidate_row_columns w a u (p_full_name p) ext em src) as Hc.
    cbv zeta in Hc. rewrite Hv in Hc. destruct Hc as [_ [_ Hn]].
    unfold is_error_row. now rewrite Hsrc, Hn.
Qed.

Lemma bio_rows_valid_witness :
  is_valid_email "jane@janedoe.art"
  = negb (Py.contains "example.com" (Py.lower "jane@janedoe.art"))
  /\ (smtp_verify sample_args = false ->
      is_error_row (mkRow "jane" "Jane Doe" "https://linktr.ee/jane"
                          "jane@janedoe.art" "bio" "True" "accepted"
                          "mx.janedoe.art") = false).
Proof.
  apply (bio_rows_valid sample_world sample_args ["jane"; "ghost"]
           (mkRow "jane" "Jane Doe" "https://linktr.ee/jane" "jane@janedoe.art"
                  "bio" "True" "accepted" "mx.janedoe.art")).
  - vm_compute. now left.
  - reflexivity.
Defined.

(** ** sender.py: who is written to *)

Lemma in_set_false_add x em seen :
  in_set x (set_add em seen) = false -> x <> em /\ in_set x seen = false.
Proof.
  unfold set_add. destruct (in_set em seen) eqn:E.
  - intros H. split; [|assumption]. intros ->. congruence.
  - unfold in_set. rewrite existsb_app. simpl. rewrite orb_false_r.
    intros H. apply orb_false_iff in H as [H1 H2]. split; [|assumption].
    intros ->. now rewrite String.eqb_refl in H2.
Qed.

Lemma sender_select_spec ov limit rows : forall seen n,
  (forall r, In r (sender_select ov limit rows seen n) ->
     In r rows
     /\ in_set (Py.lower (email r)) seen = false
     /\ (ov = true -> sender_verified r = true))
  /\ NoDup (map (fun r => Py.lower (email r)) (sender_select ov limit rows seen n)).
Proof.
  induction rows as [|x rows IH]; intros seen n; simpl.
  - split; [intros r []|constructor].
  - destruct (IH seen n) as [IH1 IH2].
    destruct (in_set (Py.lower (email x)) seen) eqn:Es.
    { split; [|assumption]. intros r Hr. destruct (IH1 r Hr) as (A & B & C). auto. }
    destruct (ov && negb (sender_verified x)) eqn:Ev.
    { split; [|assumption]. intros r Hr. destruct (IH1 r Hr) as (A & B & C). auto. }
    assert (Hx : ov = true -> sender_verified x = true).
    { intros ->. simpl in Ev. now apply negb_false_iff in Ev. }
    destruct (limit <=? n + 1)%Z.
    { split; [|repeat constructor; intros []].
      intros r [<-|[]]. auto. }
    destruct (IH (set_add (Py.lower (email x)) seen) (n + 1)%Z) as [J1 J2].
    split.
    + intros r [<-|Hr]; [auto|].
      destruct (J1 r Hr) as (A & B & C). apply in_set_false_add in B as [_ B].
      auto.
    + simpl. constructor; [|assumption]. intros Hin.
      apply in_map_iff in Hin as (r & Er & Hr).
      destruct (J1 r Hr) as (_ & B & _).
      apply in_set_false_add in B as [B _]. congruence.
Qed.

(** X26: no two selected recipients have the same address up to letter
    case; each selected row is a row of the file whose address is not blank,
    and with [--only-verified] its mx column reads true (in any letter
    case) and its status is accepted or unknown. *)
Theorem sender_recipients (ov : bool) (limit : Z) (rows : list Row) :
  NoDup (map (fun r => Py.lower (email r)) (sender_selected ov limit rows))
  /\ forall r, In r (sender_selected ov limit rows) ->
       In r rows
       /\ Py.truthy (Py.strip (email r)) = true
       /\ (ov = true ->
           Py.lower (mx r) = "true"
           /\ (smtp_status r = "accepted" \/ smtp_status r = "unknown")).
Proof.
  unfold sender_selected.
  destruct (sender_select_spec ov limit (sender_rows rows) [] 0) as [H1 H2].
  split; [assumption|]. intros r Hr. destruct (H1 r Hr) as (A & _ & C).
  unfold sender_rows in A. apply filter_In in A as [A B].
  repeat split; auto; specialize (C H); unfold sender_verified in C;
    apply andb_true_iff in C as [C1 C2].
  - now apply String.eqb_eq.
  - apply orb_true_iff in C2 as [C2|C2]; apply String.eqb_eq in C2; auto.
Qed.

Lemma sender_select_length ov limit rows : forall seen n,
  List.length (sender_select ov limit rows seen n)
  <= Z.to_nat (Z.max (limit - n) 1).
Proof.
  induction rows as [|x rows IH]; intros seen n; simpl; [lia|].
  destruct (in_set _ seen); [apply IH|].
  destruct (ov && negb (sender_verified x)); [apply IH|].
  destruct (limit <=? n + 1)%Z eqn:E; simpl; [lia|].
  apply Z.leb_gt in E.
  specialize (IH (set_add (Py.lower (email x)) seen) (n + 1)%Z). lia.
Qed.

Lemma sender_select_low_limit ov limit rows : forall seen,
  (limit <= 1)%Z ->
  sender_select ov limit rows seen 0 = sender_select ov 1 rows seen 0.
Proof.
  induction rows as [|x rows IH]; intros seen Hl; simpl; [reflexivity|].
  destruct (in_set _ seen); [now apply IH|].
  destruct (ov && negb (sender_verified x)); [now apply IH|].
  assert (E : (limit <=? 1)%Z = true) by now apply Z.leb_le.
  now rewrite E.
Qed.

(** X27: at most [limit] recipients are selected, but never fewer than one
    when a row qualifies: the limit is tested after a row has been taken,
    so a limit of zero or less selects what a limit of one selects. *)
Theorem sender_limit (ov : bool) (limit : Z) (rows : list Row) :
  List.length (sender_selected ov limit rows) <= Z.to_nat (Z.max limit 1)
  /\ ((limit <= 1)%Z ->
      sender_selected ov limit rows = sender_selected ov 1 rows).
Proof.
  unfold sender_selected. split.
  - pose proof (sender_select_length ov limit (sender_rows rows) [] 0) as H.
    now rewrite Z.sub_0_r in H.
  - apply sender_select_low_limit.
Qed.

Lemma sender_limit_witness :
  sender_selected false 0 [row_plain; row_legit] = [row_plain].
Proof.
  rewrite (proj2 (sender_limit false 0 [row_plain; row_legit])) by lia.
  reflexivity.
Defined.

Lemma sender_select_unverified limit rows : forall seen n,
  (forall r, In r rows -> smtp_status r = "") ->
  sender_select true limit rows seen n = [].
Proof.
  induction rows as [|x rows IH]; intros seen n H; simpl; [reflexivity|].
  assert (Hx : sender_verified x = false).
  { unfold sender_verified. rewrite (H x (or_introl eq_refl)).
    apply andb_false_r. }
  rewrite Hx. simpl.
  destruct (in_set _ seen); apply IH; intros r Hr; apply H; now right.
Qed.

(** X28: rows scraped without [--smtp-verify] carry an empty status, so a
    send with [--only-verified] over them selects nobody, whatever the
    limit. *)
Theorem unverified_run_sends_nothing (w : World) (a : Args)
    (users : list string) (limit : Z) :
  smtp_verify a = false ->
  sender_selected true limit (main w a users) = [].
Proof.
  intros Hv. unfold sender_selected. apply sender_select_unverified.
  intros r Hr. unfold sender_rows in Hr. apply filter_In in Hr as [Hr _].
  unfold main in Hr. apply in_flat_map in Hr as (u & _ & Hr).
  apply process_profile_rows in Hr
    as [(exn & _ & ->)|(p & ext & em & src & _ & _ & ->)]; [reflexivity|].
  pose proof (candidate_row_columns w a u (p_full_name p) ext em src) as Hc.
  cbv zeta in Hc. rewrite Hv in Hc. now destruct Hc as [_ [Hs _]].
Qed.

Lemma unverified_run_sends_nothing_witness :
  sender_selected true 100
    (main sample_world (mkArgs 1000000 5 false) ["jane"; "ghost"]) = [].
Proof.
  apply (unverified_run_sends_nothing sample_world (mkArgs 1000000 5 false)
           ["jane"; "ghost"] 100).
  reflexivity.
Defined.
